(** * Contact manager (hw_01.py): fields, records, address book, handlers

    A shallow embedding of the contact manager of [hw_01.py] and the
    properties its specification states about it.

    Conventions of the embedding.
    - A Python [str] is a [string]; each character is a code point in
      U+0000..U+00FF.  On that range the regular-expression class [\d]
      is exactly the ASCII digits '0'..'9'.
    - A Python [int] is a [Z].
    - An exception is a value of [exn]; code that can raise returns
      [exn + A], with [inl] the raised exception.
    - Objects mutated in place (a Record, the AddressBook) are threaded as
      explicit state: a computation of [M S A] maps the state before to
      the outcome and the state after, and the state after is kept when
      the computation raises, as an in-place mutation is.
    - A [dict] keeps insertion order, as Python's does.
    - The day [datetime.now().date()] returns is the argument [today] of
      the functions that read the clock. *)

From Stdlib Require Import String Ascii List ZArith Lia Bool Arith.
From Stdlib Require Import DecimalString.
Import ListNotations.

Open Scope string_scope.
Open Scope Z_scope.

(** ** Exceptions *)

Inductive exn : Type :=
| ValueError (msg : string)
| IndexError (msg : string)
| KeyError (key : string).

(** [repr] of a key, for keys without quotes, backslashes or control
    characters. *)
Definition repr (s : string) : string := "'" ++ s ++ "'".

(** [str(e)] *)
Definition str_exn (e : exn) : string :=
  match e with
  | ValueError msg => msg
  | IndexError msg => msg
  | KeyError key => repr key
  end.

(** ** State and exceptions *)

Definition M (S A : Type) : Type := S -> (exn + A) * S.

Definition ret {S A} (a : A) : M S A := fun s => (inr a, s).

Definition raise {S A} (e : exn) : M S A := fun s => (inl e, s).

Definition bind {S A B} (m : M S A) (k : A -> M S B) : M S B :=
  fun s =>
    match m s with
    | (inr a, s') => k a s'
    | (inl e, s') => (inl e, s')
    end.

Definition get {S} : M S S := fun s => (inr s, s).

Definition put {S} (s : S) : M S unit := fun _ => (inr tt, s).

(** An operation that raises or returns without touching the state. *)
Definition lift {S A} (r : exn + A) : M S A := fun s => (r, s).

Declare Scope monad_scope.
Delimit Scope monad_scope with monad.
Notation "x <- m ;; k" := (bind m (fun x => k))
  (at level 61, m at next level, right associativity) : monad_scope.
Notation "' pat <- m ;; k" := (bind m (fun x => match x with pat => k end))
  (at level 61, pat pattern, m at next level, right associativity) : monad_scope.
Notation "m ;; k" := (bind m (fun _ => k))
  (at level 61, right associativity) : monad_scope.
Open Scope monad_scope.

(** ** Characters, integers and their text *)

Definition newline : ascii := "010"%char.

(** [\d] on code points below 256. *)
Definition is_digit (c : ascii) : bool :=
  ((48 <=? nat_of_ascii c) && (nat_of_ascii c <=? 57))%nat.

Definition digit_value (c : ascii) : Z := Z.of_nat (nat_of_ascii c) - 48.

(** [str(n)] for an integer. *)
Definition str_int (n : Z) : string := NilZero.string_of_int (Z.to_int n).

Fixpoint repeat_char (c : ascii) (n : nat) : string :=
  match n with
  | O => ""
  | S n' => String c (repeat_char c n')
  end.

(** ["%0<w>d" % n] for [n >= 0]: the decimal text, zero-filled on the left
    up to width [w]. *)
Definition zero_padded (w : nat) (n : Z) : string :=
  let s := str_int n in
  repeat_char "0" (w - String.length s) ++ s.

(** [sep.join(xs)] *)
Fixpoint join (sep : string) (xs : list string) : string :=
  match xs with
  | [] => ""
  | [x] => x
  | x :: rest => x ++ sep ++ join sep rest
  end.

(** ** Fields *)

(** *** Name *)

Record Name : Type := mkName { name_value : string }.

(** [Name.__init__]: [if not value: raise ValueError(...)]. *)
Definition Name_init (value : string) : exn + Name :=
  if String.eqb value "" then inl (ValueError "Name cannot be empty")
  else inr (mkName value).

(** *** Phone *)

(** [\d{n}] at the start of [s]: the text left after [n] digits. *)
Fixpoint match_digits (n : nat) (s : string) : option string :=
  match n with
  | O => Some s
  | S n' =>
      match s with
      | String c rest => if is_digit c then match_digits n' rest else None
      | EmptyString => None
      end
  end.

(** [$] without [re.MULTILINE]: at the end of the text, or just before a
    newline that is its last character. *)
Definition at_dollar (s : string) : bool :=
  match s with
  | EmptyString => true
  | String c EmptyString => Ascii.eqb c newline
  | _ => false
  end.

(** [re.match(r'^\d{10}$', value)], as a truth value. *)
Definition re_match_phone (value : string) : bool :=
  match match_digits 10 value with
  | Some rest => at_dollar rest
  | None => false
  end.

Record Phone : Type := mkPhone { phone_value : string }.

Definition validate_phone (value : string) : exn + unit :=
  if negb (re_match_phone value)
  then inl (ValueError "Phone number must be 10 digits long")
  else inr tt.

Definition Phone_init (value : string) : exn + Phone :=
  match validate_phone value with
  | inl e => inl e
  | inr _ => inr (mkPhone value)
  end.

(** [Field.__str__] on a Phone. *)
Definition Phone_str (p : Phone) : string := phone_value p.

(** The rule of the specification: exactly ten decimal digits and nothing
    else. *)
Fixpoint all_digits (s : string) : bool :=
  match s with
  | EmptyString => true
  | String c rest => is_digit c && all_digits rest
  end.

Definition ten_digits (s : string) : bool :=
  (String.length s =? 10)%nat && all_digits s.


(** ** Dates ([datetime.date]) *)

Record date : Type := mkdate { year : Z; month : Z; day : Z }.

Definition MINYEAR : Z := 1.
Definition MAXYEAR : Z := 9999.

(** [year % 4 == 0 and (year % 100 != 0 or year % 400 == 0)] *)
Definition is_leap (y : Z) : bool :=
  (y mod 4 =? 0) && (negb (y mod 100 =? 0) || (y mod 400 =? 0)).

Definition DAYS_IN_MONTH : list Z :=
  [-1; 31; 28; 31; 30; 31; 30; 31; 31; 30; 31; 30; 31].

Definition DAYS_BEFORE_MONTH : list Z :=
  [-1; 0; 31; 59; 90; 120; 151; 181; 212; 243; 273; 304; 334].

Definition days_in_month (y m : Z) : Z :=
  if (m =? 2) && is_leap y then 29 else nth (Z.to_nat m) DAYS_IN_MONTH 0.

Definition days_before_year (y : Z) : Z :=
  let y1 := y - 1 in y1 * 365 + y1 / 4 - y1 / 100 + y1 / 400.

Definition days_before_month (y m : Z) : Z :=
  nth (Z.to_nat m) DAYS_BEFORE_MONTH 0
  + (if (2 <? m) && is_leap y then 1 else 0).

Definition ymd2ord (y m d : Z) : Z :=
  days_before_year y + days_before_month y m + d.

(** [date(year, month, day)]: the constructor checks its fields and raises
    a [ValueError] on a year outside 1..9999, a month outside 1..12 or a
    day the month does not have. *)
Definition date_new (y m d : Z) : exn + date :=
  if negb ((MINYEAR <=? y) && (y <=? MAXYEAR))
  then inl (ValueError ("year " ++ str_int y ++ " is out of range"))
  else if negb ((1 <=? m) && (m <=? 12))
  then inl (ValueError "month must be in 1..12")
  else if negb ((1 <=? d) && (d <=? days_in_month y m))
  then inl (ValueError "day is out of range for month")
  else inr (mkdate y m d).

(** [d.replace(year=y)] builds a new date from the changed fields. *)
Definition replace_year (d : date) (y : Z) : exn + date :=
  date_new y (month d) (day d).

Definition toordinal (d : date) : Z := ymd2ord (year d) (month d) (day d).

(** [a < b] on dates. *)
Definition date_lt (a b : date) : bool :=
  (year a <? year b)
  || ((year a =? year b)
      && ((month a <? month b)
          || ((month a =? month b) && (day a <? day b)))).

(** [(a - b).days] *)
Definition days_between (a b : date) : Z := toordinal a - toordinal b.

(** [str(d)], the ISO form. *)
Definition date_str (d : date) : string :=
  zero_padded 4 (year d) ++ "-" ++ zero_padded 2 (month d)
  ++ "-" ++ zero_padded 2 (day d).

(** [d.strftime("%d.%m.%Y")]: the day and the month zero-filled to two
    digits; the year as the C library prints it under [%Y], in decimal
    without zero-fill, so that a year below 1000 has fewer than four
    digits. *)
Definition strftime_dmY (d : date) : string :=
  zero_padded 2 (day d) ++ "." ++ zero_padded 2 (month d)
  ++ "." ++ str_int (year d).

(** *** Parsing under ["%d.%m.%Y"]

    The library turns the format into a regular expression and matches it
    at the start of the text.  A matcher lists its matches, each with the
    text it leaves, in the order a backtracking engine tries them. *)

Definition matcher : Type := string -> list (string * string).

Definition re_class (p : ascii -> bool) : matcher :=
  fun s =>
    match s with
    | String c rest => if p c then [(String c "", rest)] else []
    | EmptyString => []
    end.

Definition re_seq (r1 r2 : matcher) : matcher :=
  fun s =>
    flat_map (fun m1 =>
      map (fun m2 => (fst m1 ++ fst m2, snd m2)) (r2 (snd m1))) (r1 s).

Definition re_alt (r1 r2 : matcher) : matcher :=
  fun s => (r1 s ++ r2 s)%list.

Definition between (lo hi : ascii) (c : ascii) : bool :=
  ((nat_of_ascii lo <=? nat_of_ascii c)
   && (nat_of_ascii c <=? nat_of_ascii hi))%nat.

Definition re_lit (c : ascii) : matcher := re_class (Ascii.eqb c).

(** [%d]: [3[0-1]|[1-2]\d|0[1-9]|[1-9]| [1-9]] *)
Definition re_d : matcher :=
  re_alt (re_seq (re_lit "3") (re_class (between "0" "1")))
  (re_alt (re_seq (re_class (between "1" "2")) (re_class is_digit))
  (re_alt (re_seq (re_lit "0") (re_class (between "1" "9")))
  (re_alt (re_class (between "1" "9"))
          (re_seq (re_lit " ") (re_class (between "1" "9")))))).

(** [%m]: [1[0-2]|0[1-9]|[1-9]] *)
Definition re_m : matcher :=
  re_alt (re_seq (re_lit "1") (re_class (between "0" "2")))
  (re_alt (re_seq (re_lit "0") (re_class (between "1" "9")))
          (re_class (between "1" "9"))).

(** [%Y]: [\d\d\d\d] *)
Definition re_Y : matcher :=
  re_seq (re_class is_digit)
    (re_seq (re_class is_digit)
       (re_seq (re_class is_digit) (re_class is_digit))).

(** A matcher followed by the rest of the expression: [k] receives the
    text matched and the text left. *)
Definition stage {X} (r : matcher) (k : string -> string -> list X)
  : string -> list X :=
  fun s => flat_map (fun m => k (fst m) (snd m)) (r s).

(** A group and the literal [\.] after it. *)
Definition dotted {X} (r : matcher) (k : string -> string -> list X)
  : string -> list X :=
  stage r (fun text s1 => stage (re_lit ".") (fun _ s2 => k text s2) s1).

(** The first match of [(%d)\.(%m)\.(%Y)]: the three groups and the text
    left after the match. *)
Definition format_regex_match (s : string)
  : option (string * string * string * string) :=
  hd_error
    (dotted re_d (fun d s2 =>
       dotted re_m (fun m s4 =>
         stage re_Y (fun y s5 => [(d, m, y, s5)]) s4) s2) s).

Fixpoint lstrip (s : string) : string :=
  match s with
  | String c rest => if Ascii.eqb c " " then lstrip rest else s
  | EmptyString => s
  end.

Fixpoint digits_value (acc : Z) (s : string) : option Z :=
  match s with
  | EmptyString => Some acc
  | String c rest =>
      if is_digit c then digits_value (acc * 10 + digit_value c) rest
      else None
  end.

(** [int(s)] on the texts the groups can hold: blanks, then digits. *)
Definition int_of_str (s : string) : exn + Z :=
  match lstrip s with
  | EmptyString =>
      inl (ValueError ("invalid literal for int() with base 10: " ++ repr s))
  | t =>
      match digits_value 0 t with
      | Some v => inr v
      | None =>
          inl (ValueError
                 ("invalid literal for int() with base 10: " ++ repr s))
      end
  end.

(** [datetime.strptime(data_string, "%d.%m.%Y").date()] *)
Definition strptime_dmY (data_string : string) : exn + date :=
  match format_regex_match data_string with
  | None =>
      inl (ValueError ("time data " ++ repr data_string
                       ++ " does not match format '%d.%m.%Y'"))
  | Some (d, m, y, rest) =>
      if negb (String.length rest =? 0)%nat
      then inl (ValueError ("unconverted data remains: " ++ rest))
      else
        match int_of_str y with
        | inl e => inl e
        | inr yv =>
            match int_of_str m with
            | inl e => inl e
            | inr mv =>
                match int_of_str d with
                | inl e => inl e
                | inr dv => date_new yv mv dv
                end
            end
        end
  end.

(** *** Birthday *)

Record Birthday : Type := mkBirthday { birthday_value : date }.

(** [Birthday.__init__]: a [ValueError] of the parse is raised again with
    the field's own message. *)
Definition Birthday_init (value : string) : exn + Birthday :=
  match strptime_dmY value with
  | inr d => inr (mkBirthday d)
  | inl (ValueError _) =>
      inl (ValueError "Invalid date format. Use DD.MM.YYYY")
  | inl e => inl e
  end.

(** [Birthday.__str__] *)
Definition Birthday_str (b : Birthday) : string :=
  strftime_dmY (birthday_value b).

(** ** Record *)

Record ContactRecord : Type :=
  mkRecord { name : Name; phones : list Phone; birthday : option Birthday }.

(** [Record.__init__] *)
Definition Record_init (n : string) : exn + ContactRecord :=
  match Name_init n with
  | inl e => inl e
  | inr nm => inr (mkRecord nm [] None)
  end.

Definition has_value (v : string) (p : Phone) : bool :=
  String.eqb (phone_value p) v.

(** [next((p for p in self.phones if p.value == v), None)] *)
Definition first_phone (v : string) (ps : list Phone) : option Phone :=
  find (has_value v) ps.

(** [self.phones.remove(x)] for [x] the first phone of value [v]: a Phone
    has no [__eq__], so the element removed is [x] itself, the first one
    of that value. *)
Fixpoint remove_first (v : string) (ps : list Phone) : list Phone :=
  match ps with
  | [] => []
  | p :: rest => if has_value v p then rest else p :: remove_first v rest
  end.

Definition Record_add_phone (phone : string) : M ContactRecord unit :=
  p <- lift (Phone_init phone) ;;
  self <- get ;;
  put (mkRecord (name self) (phones self ++ [p]) (birthday self)).

Definition Record_remove_phone (phone : string) : M ContactRecord unit :=
  self <- get ;;
  match first_phone phone (phones self) with
  | Some _ =>
      put (mkRecord (name self) (remove_first phone (phones self))
             (birthday self))
  | None => ret tt
  end.

Definition Record_edit_phone (old_phone new_phone : string)
  : M ContactRecord unit :=
  self <- get ;;
  match first_phone old_phone (phones self) with
  | Some _ =>
      Record_remove_phone old_phone ;;
      Record_add_phone new_phone
  | None => ret tt
  end.

Definition Record_find_phone (phone : string)
  : M ContactRecord (option string) :=
  self <- get ;;
  ret (option_map phone_value (first_phone phone (phones self))).

Definition Record_add_birthday (b : Birthday) : M ContactRecord unit :=
  self <- get ;;
  put (mkRecord (name self) (phones self) (Some b)).

(** [Record.__str__] *)
Definition Record_str (self : ContactRecord) : string :=
  "Contact name: " ++ name_value (name self)
  ++ ", phones: " ++ join "; " (map phone_value (phones self))
  ++ ", birthday: "
  ++ match birthday self with
     | Some b => Birthday_str b
     | None => "No birthday"
     end.

(** ** Dictionaries in insertion order *)

Section Dict.
Context {V : Type}.

Definition dict : Type := list (string * V).

(** [d.get(k)] *)
Fixpoint dict_get (k : string) (d : dict) : option V :=
  match d with
  | [] => None
  | (k', v) :: rest => if String.eqb k' k then Some v else dict_get k rest
  end.

(** [k in d] *)
Definition dict_mem (k : string) (d : dict) : bool :=
  match dict_get k d with
  | Some _ => true
  | None => false
  end.

(** [d[k] = v]: a key already there keeps its place. *)
Fixpoint dict_set (k : string) (v : V) (d : dict) : dict :=
  match d with
  | [] => [(k, v)]
  | (k', v') :: rest =>
      if String.eqb k' k then (k', v) :: rest
      else (k', v') :: dict_set k v rest
  end.

(** [del d[k]] *)
Fixpoint dict_del (k : string) (d : dict) : dict :=
  match d with
  | [] => []
  | (k', v') :: rest =>
      if String.eqb k' k then rest else (k', v') :: dict_del k rest
  end.

Definition dict_keys (d : dict) : list string := map fst d.

Definition dict_values (d : dict) : list V := map snd d.
End Dict.

Arguments dict V : clear implicits.

(** ** AddressBook *)

Definition AddressBook : Type := dict ContactRecord.

Definition AddressBook_add_record (record : ContactRecord)
  : M AddressBook unit :=
  data <- get ;;
  put (dict_set (name_value (name record)) record data).

Definition AddressBook_find (n : string)
  : M AddressBook (option ContactRecord) :=
  data <- get ;;
  ret (dict_get n data).

Definition AddressBook_delete (n : string) : M AddressBook unit :=
  data <- get ;;
  if dict_mem n data then put (dict_del n data) else ret tt.

(** A method call on the Record stored under [n], as in
    [book.data[n].add_phone(...)] or on the object [find] returned: the
    stored object itself is mutated, also when the call raises. *)
Definition on_record {A} (n : string) (method : M ContactRecord A)
  : M AddressBook A :=
  fun data =>
    match dict_get n data with
    | Some record =>
        let (result, record') := method record in
        (result, dict_set n record' data)
    | None => (inl (KeyError n), data)
    end.

Record upcoming : Type :=
  mkUpcoming {
      upcoming_name : string;
      upcoming_birthday : string;
      days_until_birthday : Z
    }.

(** The body of the loop of [get_upcoming_birthdays] for one record: the
    list collected so far, extended or not. *)
Definition upcoming_step (today : date) (record : ContactRecord)
    (upcoming_birthdays : list upcoming) : exn + list upcoming :=
  match birthday record with
  | Some b =>
      match replace_year (birthday_value b) (year today) with
      | inl e => inl e
      | inr this_year =>
          match (if date_lt this_year today
                 then replace_year this_year (year today + 1)
                 else inr this_year) with
          | inl e => inl e
          | inr next_birthday =>
              let days := days_between next_birthday today in
              if (0 <=? days) && (days <=? 6)
              then inr (upcoming_birthdays
                          ++ [mkUpcoming (name_value (name record))
                                (date_str next_birthday) days])%list
              else inr upcoming_birthdays
          end
      end
  | None => inr upcoming_birthdays
  end.

Fixpoint upcoming_loop (today : date) (records : list ContactRecord)
    (upcoming_birthdays : list upcoming) : exn + list upcoming :=
  match records with
  | [] => inr upcoming_birthdays
  | record :: rest =>
      match upcoming_step today record upcoming_birthdays with
      | inl e => inl e
      | inr upcoming_birthdays' => upcoming_loop today rest upcoming_birthdays'
      end
  end.

(** [get_upcoming_birthdays], with the value of [datetime.now().date()]
    as the argument [today]. *)
Definition AddressBook_get_upcoming_birthdays (today : date)
  : M AddressBook (list upcoming) :=
  data <- get ;;
  lift (upcoming_loop today (dict_values data) []).

(** [AddressBook.__str__] *)
Definition AddressBook_str (data : AddressBook) : string :=
  join (String newline "") (map Record_str (dict_values data)).

(** ** Command handlers *)

(** The decorator [input_error]: what the function returns, or the text of
    the exception it raised. *)
Definition input_error {S} (func : M S string) : S -> string * S :=
  fun s =>
    match func s with
    | (inr result, s') => (result, s')
    | (inl e, s') => (str_exn e, s')
    end.

(** [a, b = args] *)
Definition unpack2 {S} (args : list string) : M S (string * string) :=
  match args with
  | [a; b] => ret (a, b)
  | _ =>
      if (List.length args <? 2)%nat
      then raise (ValueError
                    ("not enough values to unpack (expected 2, got "
                     ++ str_int (Z.of_nat (List.length args)) ++ ")"))
      else raise (ValueError "too many values to unpack (expected 2)")
  end.

(** [a, b, c = args] *)
Definition unpack3 {S} (args : list string)
  : M S (string * string * string) :=
  match args with
  | [a; b; c] => ret (a, b, c)
  | _ =>
      if (List.length args <? 3)%nat
      then raise (ValueError
                    ("not enough values to unpack (expected 3, got "
                     ++ str_int (Z.of_nat (List.length args)) ++ ")"))
      else raise (ValueError "too many values to unpack (expected 3)")
  end.

(** [args[0]] *)
Definition index0 {S} (args : list string) : M S string :=
  match args with
  | a :: _ => ret a
  | [] => raise (IndexError "list index out of range")
  end.

(** [try: body except ValueError as e: handler] *)
Definition except_ValueError {S A} (body : M S A) (handler : string -> M S A)
  : M S A :=
  fun s =>
    match body s with
    | (inl (ValueError msg), s') => handler msg s'
    | outcome => outcome
    end.

Definition add_func (args : list string) : M AddressBook string :=
  if (List.length args <? 2)%nat then ret "Usage: add [name] [phone]"
  else
    '(n, phone) <- unpack2 args ;;
    data <- get ;;
    if dict_mem n data then
      on_record n (Record_add_phone phone) ;;
      ret ("Phone " ++ phone ++ " added to " ++ n ++ ".")
    else
      record <- lift (Record_init n) ;;
      record <- lift (match Record_add_phone phone record with
                      | (inl e, _) => inl e
                      | (inr _, record') => inr record'
                      end) ;;
      AddressBook_add_record record ;;
      ret ("Contact " ++ n ++ " with phone " ++ phone ++ " added.").

Definition change_func (args : list string) : M AddressBook string :=
  if (List.length args <? 3)%nat
  then ret "Usage: change [name] [old phone] [new phone]"
  else
    '(n, old_phone, new_phone) <- unpack3 args ;;
    record <- AddressBook_find n ;;
    match record with
    | Some _ =>
        on_record n (Record_edit_phone old_phone new_phone) ;;
        ret ("Phone " ++ old_phone ++ " changed to " ++ new_phone
             ++ " for " ++ n ++ ".")
    | None => ret "Contact not found."
    end.

Definition phone_func (args : list string) : M AddressBook string :=
  n <- index0 args ;;
  record <- AddressBook_find n ;;
  match record with
  | Some r =>
      ret ("Phones for " ++ n ++ ": " ++ join ", " (map phone_value (phones r)))
  | None => ret "Contact not found."
  end.

Definition all_contacts_func (args : list string) : M AddressBook string :=
  data <- get ;;
  match data with
  | [] => ret "Address book is empty."
  | _ => ret (AddressBook_str data)
  end.

Definition add_birthday_func (args : list string) : M AddressBook string :=
  '(n, date_str) <- unpack2 args ;;
  data <- get ;;
  if negb (dict_mem n data) then ret "Contact not found."
  else
    except_ValueError
      (b <- lift (Birthday_init date_str) ;;
       on_record n (Record_add_birthday b) ;;
       ret ("Birthday added for " ++ n ++ "."))
      (fun msg => ret msg).

Definition show_birthday_func (args : list string) : M AddressBook string :=
  n <- index0 args ;;
  data <- get ;;
  match dict_get n data with
  | None => ret "Contact not found."
  | Some record =>
      match birthday record with
      | Some b => ret (n ++ "'s birthday is " ++ Birthday_str b)
      | None => ret (n ++ " has no birthday set.")
      end
  end.

Definition birthdays_func (today : date) (args : list string)
  : M AddressBook string :=
  upcoming_birthdays <- AddressBook_get_upcoming_birthdays today ;;
  match upcoming_birthdays with
  | [] => ret "No upcoming birthdays in the next 7 days."
  | _ =>
      ret (join (String newline "")
             (map (fun entry =>
                     "Name: " ++ upcoming_name entry
                     ++ ", Birthday: " ++ upcoming_birthday entry)
                upcoming_birthdays))
  end.

(** The decorated handlers, as the command loop calls them. *)
Definition add (args : list string) := input_error (add_func args).
Definition change (args : list string) := input_error (change_func args).
Definition phone (args : list string) := input_error (phone_func args).
Definition all_contacts (args : list string) :=
  input_error (all_contacts_func args).
Definition add_birthday (args : list string) :=
  input_error (add_birthday_func args).
Definition show_birthday (args : list string) :=
  input_error (show_birthday_func args).
Definition birthdays (today : date) (args : list string) :=
  input_error (birthdays_func today args).

(** The seven commands that have a handler. *)
Inductive command : Type :=
| cmd_add | cmd_change | cmd_phone | cmd_all
| cmd_add_birthday | cmd_show_birthday | cmd_birthdays.

(** The undecorated function of a command. *)
Definition func_of (c : command) (today : date) (args : list string)
  : M AddressBook string :=
  match c with
  | cmd_add => add_func args
  | cmd_change => change_func args
  | cmd_phone => phone_func args
  | cmd_all => all_contacts_func args
  | cmd_add_birthday => add_birthday_func args
  | cmd_show_birthday => show_birthday_func args
  | cmd_birthdays => birthdays_func today args
  end.

(** The handler of a command. *)
Definition handler (c : command) (today : date) (args : list string)
  : AddressBook -> string * AddressBook :=
  match c with
  | cmd_add => add args
  | cmd_change => change args
  | cmd_phone => phone args
  | cmd_all => all_contacts args
  | cmd_add_birthday => add_birthday args
  | cmd_show_birthday => show_birthday args
  | cmd_birthdays => birthdays today args
  end.

(** ** Inputs and readings used by the properties *)

Definition LF : string := String newline "".

(** The record of the demonstration in [main]: John, two phones, a
    birthday. *)
Definition build_john : M ContactRecord unit :=
  Record_add_phone "1234567890" ;;
  Record_add_phone "5555555555" ;;
  b <- lift (Birthday_init "10.08.1990") ;;
  Record_add_birthday b.

(** The value of a text of digits. *)
Fixpoint decimal_value_from (acc : Z) (s : string) : Z :=
  match s with
  | EmptyString => acc
  | String c rest => decimal_value_from (acc * 10 + digit_value c) rest
  end.

Definition decimal_value (s : string) : Z := decimal_value_from 0 s.

(** A text in the form DD.MM.YYYY: two digits, a dot, two digits, a dot,
    four digits. *)
Definition is_DDMMYYYY (s : string) : bool :=
  match s with
  | String d1 (String d2 (String p1 (String m1 (String m2 (String p2
      (String y1 (String y2 (String y3 (String y4 EmptyString))))))))) =>
      is_digit d1 && is_digit d2 && Ascii.eqb p1 "."
      && is_digit m1 && is_digit m2 && Ascii.eqb p2 "."
      && is_digit y1 && is_digit y2 && is_digit y3 && is_digit y4
  | _ => false
  end.

Definition text_day (s : string) : Z := decimal_value (substring 0 2 s).
Definition text_month (s : string) : Z := decimal_value (substring 3 2 s).
Definition text_year (s : string) : Z := decimal_value (substring 6 4 s).

(** The Gregorian rule: every fourth year is a leap year, except the
    centuries that are not multiples of 400. *)
Definition gregorian_leap (y : Z) : bool :=
  if y mod 400 =? 0 then true
  else if y mod 100 =? 0 then false
  else y mod 4 =? 0.

Definition month_length (y m : Z) : Z :=
  if (m =? 4) || (m =? 6) || (m =? 9) || (m =? 11) then 30
  else if m =? 2 then (if gregorian_leap y then 29 else 28)
  else 31.

(** A day of the calendar that a [date] can hold: a year from 1 to 9999,
    a month from 1 to 12, a day of that month. *)
Definition real_calendar_date (y m d : Z) : bool :=
  (1 <=? y) && (y <=? 9999) && (1 <=? m) && (m <=? 12)
  && (1 <=? d) && (d <=? month_length y m).

Definition denotes_real_date (s : string) : bool :=
  real_calendar_date (text_year s) (text_month s) (text_day s).

Definition digit_chars : list ascii :=
  ["0"; "1"; "2"; "3"; "4"; "5"; "6"; "7"; "8"; "9"]%char.

(** The Record the [add] handler works on: the one stored under [n], or
    the one [Record(n)] makes. *)
Definition record_or_new (n : string) (book : AddressBook) : ContactRecord :=
  match dict_get n book with
  | Some record => record
  | None => mkRecord (mkName n) [] None
  end.

(** [self.phones.append(p)] on a Record value. *)
Definition with_phone (record : ContactRecord) (p : string) : ContactRecord :=
  mkRecord (name record) (phones record ++ [mkPhone p]) (birthday record).

(** The books of the examples, built through the handlers: Bob was born
    on 13.03.1990, Ann on 29.02.2000. *)
Definition book_bob : AddressBook :=
  snd (add_birthday ["Bob"; "13.03.1990"] (snd (add ["Bob"; "5555555555"] []))).

Definition book_ann_bob : AddressBook :=
  snd (add_birthday ["Bob"; "13.03.1990"]
         (snd (add ["Bob"; "5555555555"]
                 (snd (add_birthday ["Ann"; "29.02.2000"]
                         (snd (add ["Ann"; "1234567890"] []))))))).

(** The year a birthday of 29 February is moved into: the year of [today],
    or the next one when that year is a leap year and its 29 February is
    before [today]. *)
Definition rolled_into (today : date) : Z :=
  if is_leap (year today) && date_lt (mkdate (year today) 2 29) today
  then year today + 1 else year today.

(** Every Record's name is the key it is stored under. *)
Definition names_match_keys (book : AddressBook) : bool :=
  forallb (fun entry => String.eqb (name_value (name (snd entry))) (fst entry))
    book.

(** A method called on a Record. *)
Inductive record_method : Type :=
| call_add_phone (phone : string)
| call_remove_phone (phone : string)
| call_edit_phone (old_phone new_phone : string)
| call_find_phone (phone : string)
| call_add_birthday (b : Birthday).

Definition run_method (m : record_method) : M ContactRecord unit :=
  match m with
  | call_add_phone phone => Record_add_phone phone
  | call_remove_phone phone => Record_remove_phone phone
  | call_edit_phone old_phone new_phone => Record_edit_phone old_phone new_phone
  | call_find_phone phone => (Record_find_phone phone ;; ret tt)
  | call_add_birthday b => Record_add_birthday b
  end.

(** What a client of the book can do to it: the methods of the book, a
    method of a Record that [find] returned (the Record of the book
    itself), and the handlers. *)
Inductive operation : Type :=
| op_add_record (record : ContactRecord)
| op_find (n : string)
| op_delete (n : string)
| op_method (n : string) (m : record_method)
| op_handler (c : command) (today : date) (args : list string).

(** The book after an operation, whether it raised or not. *)
Definition run_operation (op : operation) (book : AddressBook) : AddressBook :=
  match op with
  | op_add_record record => snd (AddressBook_add_record record book)
  | op_find n => snd (AddressBook_find n book)
  | op_delete n => snd (AddressBook_delete n book)
  | op_method n m => snd (on_record n (run_method m) book)
  | op_handler c today args => snd (handler c today args book)
  end.

Definition run_operations (ops : list operation) (book : AddressBook)
  : AddressBook :=
  fold_left (fun b op => run_operation op b) ops book.

(** A computation that keeps a property of the state, also when it
    raises. *)
Definition preserves {S A} (P : S -> Prop) (m : M S A) : Prop :=
  forall s, P s -> P (snd (m s)).

Definition keys_ok (book : AddressBook) : Prop :=
  names_match_keys book = true.

(** A Record of a given name. *)
Definition named (nm : Name) (record : ContactRecord) : Prop :=
  name record = nm.

(** The next occurrence of a birthday as the loop computes it: the day
    and month in the year of [today], or in the next year when that day
    is before [today]. *)
Definition next_birthday (today born : date) : exn + date :=
  match replace_year born (year today) with
  | inl e => inl e
  | inr this_year =>
      if date_lt this_year today
      then replace_year this_year (year today + 1)
      else inr this_year
  end.

(** The entry a Record contributes: one when it has a Birthday whose next
    occurrence is 0 to 6 days after [today], none otherwise. *)
Definition selected (today : date) (record : ContactRecord) : list upcoming :=
  match birthday record with
  | Some b =>
      match next_birthday today (birthday_value b) with
      | inr next =>
          if (0 <=? days_between next today) && (days_between next today <=? 6)
          then [mkUpcoming (name_value (name record)) (date_str next)
                  (days_between next today)]
          else []
      | inl _ => []
      end
  | None => []
  end.

(** The Records whose birthday can be moved into the year it falls in. *)
Definition rolls (today : date) (record : ContactRecord) : bool :=
  match birthday record with
  | Some b =>
      match next_birthday today (birthday_value b) with
      | inr _ => true
      | inl _ => false
      end
  | None => true
  end.

(** ** Readings used by the further properties *)

(** The values of the phones of a Record, in their order. *)
Definition phone_values (record : ContactRecord) : list string :=
  map phone_value (phones record).

(** Every phone of the Record passes the validation of Phone. *)
Definition phones_valid (record : ContactRecord) : bool :=
  forallb (fun p => re_match_phone (phone_value p)) (phones record).

(** The keys of a dictionary are pairwise different. *)
Fixpoint unique (ks : list string) : bool :=
  match ks with
  | [] => true
  | k :: rest => negb (existsb (String.eqb k) rest) && unique rest
  end.

Definition unique_keys (book : AddressBook) : bool := unique (dict_keys book).

(** A date that a [date] value can be. *)
Definition date_ok (d : date) : bool :=
  real_calendar_date (year d) (month d) (day d).

(** A Record without a birthday, or with one that is a date of the
    calendar other than a 29 February. *)
Definition plain_birthday (record : ContactRecord) : bool :=
  match birthday record with
  | Some b =>
      date_ok (birthday_value b)
      && negb ((month (birthday_value b) =? 2) && (day (birthday_value b) =? 29))
  | None => true
  end.

(** A Record as the data model wants it: a name that is not empty, phones
    that pass the validation of Phone, and a birthday, if any, that is a
    date of the calendar. *)
Definition record_ok (record : ContactRecord) : bool :=
  negb (String.eqb (name_value (name record)) "")
  && phones_valid record
  && match birthday record with
     | Some b => date_ok (birthday_value b)
     | None => true
     end.

Definition book_ok (book : AddressBook) : bool :=
  forallb (fun entry => record_ok (snd entry)) book.

(** A command as the loop receives it: the command, the day on which it
    runs, its arguments. *)
Definition command_line : Type := (command * date * list string)%type.

(** The book after a sequence of commands. *)
Definition run_commands (lines : list command_line) (book : AddressBook)
  : AddressBook :=
  fold_left
    (fun b line => snd (handler (fst (fst line)) (snd (fst line)) (snd line) b))
    lines book.

Definition ok (record : ContactRecord) : Prop := record_ok record = true.

Definition all_ok (book : AddressBook) : Prop := book_ok book = true.

(** An outcome other than a raised [KeyError]. *)
Definition not_KeyError {A} (outcome : exn + A) : Prop :=
  match outcome with
  | inl (KeyError _) => False
  | _ => True
  end.

(** A book with given keys, in their order. *)
Definition has_keys (ks : list string) (book : AddressBook) : Prop :=
  dict_keys book = ks.

(** ** [parse_input] *)

(** [c.isspace()] on code points below 256: the controls U+0009..U+000D
    and U+001C..U+001F, the blank, U+0085 and U+00A0. *)
Definition is_space (c : ascii) : bool :=
  let n := nat_of_ascii c in
  (((9 <=? n) && (n <=? 13)) || ((28 <=? n) && (n <=? 32))
   || (n =? 133) || (n =? 160))%nat.

(** [s.split()]: the maximal runs of characters of [s] that are not
    whitespace; [word] is the run that is being read. *)
Fixpoint split_from (word : string) (s : string) : list string :=
  match s with
  | EmptyString =>
      match word with
      | EmptyString => []
      | _ => [word]
      end
  | String c rest =>
      if is_space c then
        match word with
        | EmptyString => split_from "" rest
        | _ => word :: split_from "" rest
        end
      else split_from (word ++ String c "") rest
  end.

Definition split (s : string) : list string := split_from "" s.

(** [parts = user_input.split(); return parts[0], parts[1:]] *)
Definition parse_input (user_input : string) : exn + (string * list string) :=
  match split user_input with
  | [] => inl (IndexError "list index out of range")
  | command :: args => inr (command, args)
  end.

(** A text of whitespace only, and a text without whitespace. *)
Fixpoint all_space (s : string) : bool :=
  match s with
  | EmptyString => true
  | String c rest => is_space c && all_space rest
  end.

Fixpoint no_space (s : string) : bool :=
  match s with
  | EmptyString => true
  | String c rest => negb (is_space c) && no_space rest
  end.

(** A word: a text that is not empty and has no whitespace. *)
Definition is_word (s : string) : bool :=
  negb (String.eqb s "") && no_space s.

(** The errors the constructor of a date raises. *)
Definition date_error (e : exn) : Prop :=
  e = ValueError "day is out of range for month"
  \/ e = ValueError "month must be in 1..12"
  \/ exists y, e = ValueError ("year " ++ str_int y ++ " is out of range").

(** The errors that leave the function of each command: those of the
    unpacking of the arguments, of the fields, of the index and of the
    replacement of the year.  The [ValueError] of a Birthday is not
    among them: [add_birthday] catches it itself. *)
Definition raises_in (c : command) (e : exn) : Prop :=
  match c with
  | cmd_add =>
      e = ValueError "too many values to unpack (expected 2)"
      \/ e = ValueError "Name cannot be empty"
      \/ e = ValueError "Phone number must be 10 digits long"
  | cmd_change =>
      e = ValueError "too many values to unpack (expected 3)"
      \/ e = ValueError "Phone number must be 10 digits long"
  | cmd_phone => e = IndexError "list index out of range"
  | cmd_all => False
  | cmd_add_birthday =>
      e = ValueError "too many values to unpack (expected 2)"
      \/ exists k,
           e = ValueError ("not enough values to unpack (expected 2, got "
                           ++ str_int k ++ ")")
  | cmd_show_birthday => e = IndexError "list index out of range"
  | cmd_birthdays => date_error e
  end.

(** * Properties *)

(** ** Phone *)

Lemma append_empty_r (s : string) : s ++ "" = s.
Proof. induction s as [|c s IH]; simpl; [reflexivity | now rewrite IH]. Qed.

Lemma match_digits_append (q rest : string) :
  all_digits q = true ->
  match_digits (String.length q) (q ++ rest) = Some rest.
Proof.
  induction q as [|c q IH]; simpl; intros H.
  - reflexivity.
  - apply andb_true_iff in H as [Hc Hq]. rewrite Hc. now apply IH.
Qed.

Lemma match_digits_inv (n : nat) :
  forall s rest,
    match_digits n s = Some rest ->
    exists q, s = q ++ rest /\ String.length q = n /\ all_digits q = true.
Proof.
  induction n as [|n IH]; simpl; intros s rest H.
  - injection H as <-. exists "". repeat split.
  - destruct s as [|c s]; [discriminate|].
    destruct (is_digit c) eqn:Hc; [|discriminate].
    destruct (IH _ _ H) as (q & -> & Hlen & Hq).
    exists (String c q). simpl. rewrite Hc, Hlen, Hq. repeat split.
Qed.

(** The pattern accepts the ten-digit texts and, because of [$], the
    ten-digit texts followed by one newline; it accepts nothing else. *)
Lemma re_match_phone_iff (p : string) :
  re_match_phone p = true <->
  ten_digits p = true \/ exists q, ten_digits q = true /\ p = q ++ LF.
Proof.
  unfold re_match_phone, ten_digits. split.
  - destruct (match_digits 10 p) as [rest|] eqn:Hm; [|discriminate].
    apply match_digits_inv in Hm as (q & -> & Hlen & Hq).
    destruct rest as [|c [|c' rest]]; simpl; intros H; try discriminate.
    + left. rewrite append_empty_r, Hlen, Hq. reflexivity.
    + right. apply Ascii.eqb_eq in H as ->. exists q.
      rewrite Hlen, Hq. split; reflexivity.
  - intros [H | (q & H & ->)];
      apply andb_true_iff in H as [Hlen Hq];
      apply Nat.eqb_eq in Hlen.
    + rewrite <- (append_empty_r p), <- Hlen, match_digits_append by assumption.
      reflexivity.
    + rewrite <- Hlen, match_digits_append by assumption. reflexivity.
Qed.

Lemma ten_digits_accepted (p : string) :
  ten_digits p = true -> Phone_init p = inr (mkPhone p).
Proof.
  intros H. unfold Phone_init, validate_phone.
  replace (re_match_phone p) with true; [reflexivity|].
  symmetry. apply re_match_phone_iff. now left.
Qed.

Lemma Phone_init_accepted (p : string) :
  re_match_phone p = true -> Phone_init p = inr (mkPhone p).
Proof. intros H. unfold Phone_init, validate_phone. now rewrite H. Qed.

Lemma Phone_init_rejected (p : string) :
  re_match_phone p = false ->
  Phone_init p = inl (ValueError "Phone number must be 10 digits long").
Proof. intros H. unfold Phone_init, validate_phone. now rewrite H. Qed.

(** A Phone that was constructed renders as the text it was given. *)
Lemma Phone_str_init (p : string) (ph : Phone) :
  Phone_init p = inr ph -> Phone_str ph = p.
Proof.
  unfold Phone_init. destruct (validate_phone p); [discriminate|].
  intros H. injection H as <-. reflexivity.
Qed.

(** C1: construction of a Phone is claimed to succeed exactly on the texts
    of ten decimal digits and nothing else.  On the ten digits
    ["1234567890"] followed by a newline, eleven characters, the
    constructor succeeds and the Phone renders as that text, although the
    text is not ten digits; the same ten digits followed by a blank are
    refused with the message that a phone must be 10 digits long. *)
Theorem Phone_accepts_trailing_newline :
  Phone_init ("1234567890" ++ LF) = inr (mkPhone ("1234567890" ++ LF))
  /\ Phone_str (mkPhone ("1234567890" ++ LF)) = "1234567890" ++ LF
  /\ String.length ("1234567890" ++ LF) = 11%nat
  /\ ten_digits ("1234567890" ++ LF) = false
  /\ Phone_init "1234567890 "
     = inl (ValueError "Phone number must be 10 digits long").
Proof. repeat split. Qed.

(** ** Record *)

(** C2: after [edit_phone("1234567890", "1112223333")] on the record with
    phones 1234567890 and 5555555555 the phone list is claimed to be
    [1112223333, 5555555555].  The method removes the old phone and appends
    the new one: the list is [5555555555, 1112223333], and the record
    renders with the phones in that order. *)
Theorem edit_phone_appends_new_phone :
  exists john0 john john',
    Record_init "John" = inr john0
    /\ build_john john0 = (inr tt, john)
    /\ map phone_value (phones john) = ["1234567890"; "5555555555"]
    /\ Record_edit_phone "1234567890" "1112223333" john = (inr tt, john')
    /\ map phone_value (phones john') = ["5555555555"; "1112223333"]
    /\ map phone_value (phones john') <> ["1112223333"; "5555555555"]
    /\ Record_str john'
       = "Contact name: John, phones: 5555555555; 1112223333, birthday: 10.08.1990".
Proof.
  do 3 eexists. repeat split; try reflexivity. discriminate.
Qed.

(** ** Birthday *)

Lemma digit_cases (c : ascii) : is_digit c = true -> In c digit_chars.
Proof.
  destruct c as [[] [] [] [] [] [] [] []]; intros H;
    try discriminate H; simpl; tauto.
Qed.

Ltac each_digit H :=
  apply digit_cases in H; simpl in H;
  repeat (destruct H as [<- | H]); try contradiction.

(** Evaluates a matcher applied to a text that starts with known
    characters, then the stages that follow it. *)
Ltac run_matcher :=
  match goal with
  | |- context [flat_map _ (?r ?s)] =>
      let c := eval vm_compute in (r s) in
      change (r s) with c
  end;
  simpl; rewrite ?app_nil_r; reflexivity.

Lemma dotted_re_d {X} (k : string -> string -> list X) d1 d2 rest :
  is_digit d1 = true -> is_digit d2 = true ->
  dotted re_d k (String d1 (String d2 (String "." rest)))
  = if (1 <=? decimal_value (String d1 (String d2 "")))
       && (decimal_value (String d1 (String d2 "")) <=? 31)
    then k (String d1 (String d2 "")) rest else [].
Proof.
  intros H1 H2. unfold dotted, stage.
  each_digit H1; each_digit H2; run_matcher.
Qed.

Lemma dotted_re_m {X} (k : string -> string -> list X) m1 m2 rest :
  is_digit m1 = true -> is_digit m2 = true ->
  dotted re_m k (String m1 (String m2 (String "." rest)))
  = if (1 <=? decimal_value (String m1 (String m2 "")))
       && (decimal_value (String m1 (String m2 "")) <=? 12)
    then k (String m1 (String m2 "")) rest else [].
Proof.
  intros H1 H2. unfold dotted, stage.
  each_digit H1; each_digit H2; run_matcher.
Qed.

Lemma stage_re_Y {X} (k : string -> string -> list X) y1 y2 y3 y4 rest :
  is_digit y1 = true -> is_digit y2 = true ->
  is_digit y3 = true -> is_digit y4 = true ->
  stage re_Y k (String y1 (String y2 (String y3 (String y4 rest))))
  = k (String y1 (String y2 (String y3 (String y4 "")))) rest.
Proof.
  intros H1 H2 H3 H4. unfold stage, re_Y, re_seq, re_class.
  rewrite H1. simpl. rewrite H2. simpl. rewrite H3. simpl. rewrite H4.
  simpl. apply app_nil_r.
Qed.

(** The match of the format on a text in the form DD.MM.YYYY. *)
Lemma format_regex_match_DDMMYYYY d1 d2 m1 m2 y1 y2 y3 y4 :
  is_digit d1 = true -> is_digit d2 = true ->
  is_digit m1 = true -> is_digit m2 = true ->
  is_digit y1 = true -> is_digit y2 = true ->
  is_digit y3 = true -> is_digit y4 = true ->
  let dd := String d1 (String d2 "") in
  let mm := String m1 (String m2 "") in
  let yyyy := String y1 (String y2 (String y3 (String y4 ""))) in
  format_regex_match (dd ++ "." ++ mm ++ "." ++ yyyy)
  = if (1 <=? decimal_value dd) && (decimal_value dd <=? 31)
       && ((1 <=? decimal_value mm) && (decimal_value mm <=? 12))
    then Some (dd, mm, yyyy, "") else None.
Proof.
  intros Hd1 Hd2 Hm1 Hm2 Hy1 Hy2 Hy3 Hy4 dd mm yyyy.
  unfold format_regex_match. subst dd mm yyyy. simpl append.
  rewrite dotted_re_d by assumption.
  destruct ((1 <=? _) && (_ <=? 31)); [|reflexivity].
  rewrite dotted_re_m by assumption.
  destruct ((1 <=? _) && (_ <=? 12)); [|reflexivity].
  rewrite stage_re_Y by assumption. reflexivity.
Qed.

Lemma digit_not_blank (c : ascii) :
  is_digit c = true -> Ascii.eqb c " " = false.
Proof.
  intros H. destruct (Ascii.eqb_spec c " ") as [->|]; [discriminate H|].
  reflexivity.
Qed.

Lemma digits_value_all_digits (s : string) :
  all_digits s = true ->
  forall acc, digits_value acc s = Some (decimal_value_from acc s).
Proof.
  induction s as [|c s IH]; simpl; intros H acc; [reflexivity|].
  apply andb_true_iff in H as [Hc Hs]. rewrite Hc. now apply IH.
Qed.

(** [int] of a text of digits is its value. *)
Lemma int_of_str_digits (c : ascii) (s : string) :
  all_digits (String c s) = true ->
  int_of_str (String c s) = inr (decimal_value (String c s)).
Proof.
  intros H. unfold int_of_str.
  assert (Hc : is_digit c = true)
    by (simpl in H; now apply andb_true_iff in H).
  simpl lstrip. rewrite (digit_not_blank c Hc).
  now rewrite digits_value_all_digits.
Qed.

Lemma zero_padded_two_digits a b :
  is_digit a = true -> is_digit b = true ->
  zero_padded 2 (decimal_value (String a (String b "")))
  = String a (String b "").
Proof. intros Ha Hb. each_digit Ha; each_digit Hb; reflexivity. Qed.

Lemma zero_padded_four_digits a b c d :
  is_digit a = true -> is_digit b = true ->
  is_digit c = true -> is_digit d = true ->
  zero_padded 4
    (decimal_value (String a (String b (String c (String d "")))))
  = String a (String b (String c (String d ""))).
Proof.
  intros Ha Hb Hc Hd.
  assert (Hall :
    forallb (fun a => forallb (fun b => forallb (fun c => forallb (fun d =>
      let t := String a (String b (String c (String d ""))) in
      String.eqb (zero_padded 4 (decimal_value t)) t)
      digit_chars) digit_chars) digit_chars) digit_chars = true)
    by (vm_compute; reflexivity).
  apply digit_cases in Ha, Hb, Hc, Hd.
  rewrite forallb_forall in Hall. specialize (Hall a Ha).
  rewrite forallb_forall in Hall. specialize (Hall b Hb).
  rewrite forallb_forall in Hall. specialize (Hall c Hc).
  rewrite forallb_forall in Hall. specialize (Hall d Hd).
  now apply String.eqb_eq in Hall.
Qed.

(** A year of four digits that is 1000 or more prints as its digits. *)
Lemma str_int_four_digits a b c d :
  is_digit a = true -> is_digit b = true ->
  is_digit c = true -> is_digit d = true ->
  1000 <= decimal_value (String a (String b (String c (String d "")))) ->
  str_int (decimal_value (String a (String b (String c (String d "")))))
  = String a (String b (String c (String d ""))).
Proof.
  intros Ha Hb Hc Hd Hy.
  assert (Hall :
    forallb (fun a => forallb (fun b => forallb (fun c => forallb (fun d =>
      let t := String a (String b (String c (String d ""))) in
      negb (1000 <=? decimal_value t)
      || String.eqb (str_int (decimal_value t)) t)
      digit_chars) digit_chars) digit_chars) digit_chars = true)
    by (vm_compute; reflexivity).
  apply digit_cases in Ha, Hb, Hc, Hd.
  rewrite forallb_forall in Hall. specialize (Hall a Ha).
  rewrite forallb_forall in Hall. specialize (Hall b Hb).
  rewrite forallb_forall in Hall. specialize (Hall c Hc).
  rewrite forallb_forall in Hall. specialize (Hall d Hd).
  cbv zeta in Hall. apply orb_true_iff in Hall as [Hlow|Heq].
  - apply negb_true_iff, Z.leb_gt in Hlow. lia.
  - now apply String.eqb_eq in Heq.
Qed.

Lemma gregorian_leap_is_leap (y : Z) : gregorian_leap y = is_leap y.
Proof.
  unfold gregorian_leap, is_leap.
  destruct (Z.eqb_spec (y mod 400) 0), (Z.eqb_spec (y mod 100) 0),
    (Z.eqb_spec (y mod 4) 0); simpl; try reflexivity;
    exfalso; Z.div_mod_to_equations; lia.
Qed.

Lemma month_length_days_in_month (y m : Z) :
  1 <= m <= 12 -> month_length y m = days_in_month y m.
Proof.
  intros Hm.
  assert (H : m = 1 \/ m = 2 \/ m = 3 \/ m = 4 \/ m = 5 \/ m = 6 \/ m = 7
              \/ m = 8 \/ m = 9 \/ m = 10 \/ m = 11 \/ m = 12) by lia.
  unfold month_length, days_in_month. rewrite gregorian_leap_is_leap.
  repeat (destruct H as [-> | H]); try subst m; simpl;
    destruct (is_leap y); reflexivity.
Qed.

(** The constructor of a date accepts the real calendar dates and raises a
    [ValueError] on every other triple of fields. *)
Lemma date_new_real (y m d : Z) :
  real_calendar_date y m d = true -> date_new y m d = inr (mkdate y m d).
Proof.
  unfold real_calendar_date, date_new, MINYEAR, MAXYEAR. intros H.
  repeat (apply andb_true_iff in H as [H ?]).
  rewrite <- month_length_days_in_month by lia.
  rewrite H. repeat match goal with Hx : _ = true |- _ => rewrite Hx end.
  reflexivity.
Qed.


Lemma is_DDMMYYYY_inv (s : string) :
  is_DDMMYYYY s = true ->
  exists d1 d2 m1 m2 y1 y2 y3 y4,
    s = String d1 (String d2 "") ++ "." ++ String m1 (String m2 "") ++ "."
        ++ String y1 (String y2 (String y3 (String y4 "")))
    /\ is_digit d1 = true /\ is_digit d2 = true
    /\ is_digit m1 = true /\ is_digit m2 = true
    /\ is_digit y1 = true /\ is_digit y2 = true
    /\ is_digit y3 = true /\ is_digit y4 = true.
Proof.
  destruct s as [|d1 [|d2 [|p1 [|m1 [|m2 [|p2 [|y1 [|y2 [|y3 [|y4 [|? ?]]]]]]]]]]];
    try discriminate.
  simpl. intros H. do 9 (apply andb_true_iff in H as [H ?]).
  repeat match goal with
         | Hx : Ascii.eqb _ _ = true |- _ => apply Ascii.eqb_eq in Hx; subst
         end.
  exists d1, d2, m1, m2, y1, y2, y3, y4. repeat split; assumption || reflexivity.
Qed.

Lemma real_calendar_date_bounds (y m d : Z) :
  real_calendar_date y m d = true ->
  ((1 <=? d) && (d <=? 31)) && ((1 <=? m) && (m <=? 12)) = true.
Proof.
  unfold real_calendar_date, month_length. intros H.
  repeat (apply andb_true_iff in H as [H ?]).
  assert (d <= 31).
  { destruct ((m =? 4) || (m =? 6) || (m =? 9) || (m =? 11));
      [|destruct (m =? 2); [destruct (gregorian_leap y)|]]; lia. }
  repeat (apply andb_true_iff; split); lia.
Qed.



(** The specification's example of a date that does not exist. *)
Example Birthday_31_02_2020 :
  is_DDMMYYYY "31.02.2020" = true
  /\ denotes_real_date "31.02.2020" = false
  /\ Birthday_init "31.02.2020"
     = inl (ValueError "Invalid date format. Use DD.MM.YYYY").
Proof. repeat split. Qed.


(** ** Dictionaries *)

Section DictFacts.
Context {V : Type}.
Implicit Types (d : dict V) (k : string) (v : V).

Lemma dict_get_set_same k v d : dict_get k (dict_set k v d) = Some v.
Proof.
  induction d as [|[k' v'] d IH]; simpl.
  - now rewrite String.eqb_refl.
  - destruct (String.eqb k' k) eqn:E; simpl; rewrite E; [reflexivity|exact IH].
Qed.

Lemma dict_get_set_other k k' v d :
  k <> k' -> dict_get k' (dict_set k v d) = dict_get k' d.
Proof.
  intros Hne. induction d as [|[k0 v0] d IH]; simpl.
  - destruct (String.eqb_spec k k'); [contradiction|reflexivity].
  - destruct (String.eqb_spec k0 k) as [->|]; simpl.
    + destruct (String.eqb_spec k k'); [contradiction|reflexivity].
    + destruct (String.eqb k0 k'); [reflexivity|exact IH].
Qed.

(** Storing again what is stored changes nothing. *)
Lemma dict_set_get_id k v d : dict_get k d = Some v -> dict_set k v d = d.
Proof.
  induction d as [|[k' v'] d IH]; simpl; [discriminate|].
  destruct (String.eqb k' k).
  - intros H. injection H as ->. reflexivity.
  - intros H. now rewrite IH.
Qed.

Lemma dict_keys_set k v d :
  dict_keys (dict_set k v d)
  = if dict_mem k d then dict_keys d else (dict_keys d ++ [k])%list.
Proof.
  unfold dict_mem. induction d as [|[k' v'] d IH]; simpl; [reflexivity|].
  destruct (String.eqb k' k); simpl; [reflexivity|].
  rewrite IH. now destruct (dict_get k d).
Qed.

Lemma dict_get_In k v d : dict_get k d = Some v -> In (k, v) d.
Proof.
  induction d as [|[k' v'] d IH]; simpl; [discriminate|].
  destruct (String.eqb_spec k' k) as [->|].
  - intros H. injection H as ->. now left.
  - intros H. right. now apply IH.
Qed.

Lemma dict_mem_get k d :
  dict_mem k d = true -> exists v, dict_get k d = Some v.
Proof. unfold dict_mem. destruct (dict_get k d); [eauto|discriminate]. Qed.

Lemma dict_mem_false k d : dict_mem k d = false -> dict_get k d = None.
Proof. unfold dict_mem. now destruct (dict_get k d). Qed.
End DictFacts.

(** ** The [add] handler *)

Lemma Record_add_phone_accepted (p : string) (record : ContactRecord) :
  re_match_phone p = true ->
  Record_add_phone p record = (inr tt, with_phone record p).
Proof.
  intros H. unfold Record_add_phone, bind, lift.
  now rewrite (Phone_init_accepted p H).
Qed.

Lemma Record_add_phone_rejected (p : string) (record : ContactRecord) :
  re_match_phone p = false ->
  Record_add_phone p record
  = (inl (ValueError "Phone number must be 10 digits long"), record).
Proof.
  intros H. unfold Record_add_phone, bind, lift.
  now rewrite (Phone_init_rejected p H).
Qed.

(** [add] on a name that has a Record appends the phone to it. *)
Lemma add_present (book : AddressBook) (n p : string) record :
  dict_get n book = Some record -> re_match_phone p = true ->
  add [n; p] book
  = ("Phone " ++ p ++ " added to " ++ n ++ ".",
     dict_set n (with_phone record p) book).
Proof.
  intros Hget Hp.
  unfold add, input_error, add_func, unpack2, bind, ret, get, on_record,
    dict_mem.
  cbn [List.length Nat.ltb Nat.leb].
  rewrite Hget. rewrite Hget.
  rewrite Record_add_phone_accepted by assumption. reflexivity.
Qed.

(** [add] on a new name stores a Record with the one phone. *)
Lemma add_absent (book : AddressBook) (n p : string) :
  dict_get n book = None -> n <> "" -> re_match_phone p = true ->
  add [n; p] book
  = ("Contact " ++ n ++ " with phone " ++ p ++ " added.",
     dict_set n (with_phone (mkRecord (mkName n) [] None) p) book).
Proof.
  intros Hget Hn Hp.
  unfold add, input_error, add_func, unpack2, bind, ret, get, lift, dict_mem.
  cbn [List.length Nat.ltb Nat.leb].
  rewrite Hget. unfold Record_init, Name_init.
  destruct (String.eqb_spec n ""); [contradiction|].
  rewrite Record_add_phone_accepted by assumption. reflexivity.
Qed.

Lemma add_valid (book : AddressBook) (n p : string) :
  n <> "" \/ dict_mem n book = true -> re_match_phone p = true ->
  snd (add [n; p] book) = dict_set n (with_phone (record_or_new n book) p) book.
Proof.
  intros Hn Hp. unfold record_or_new.
  destruct (dict_get n book) as [record|] eqn:Hget.
  - now rewrite (add_present book n p record).
  - rewrite add_absent; try assumption; [reflexivity|].
    destruct Hn as [Hn|Hn]; [assumption|].
    unfold dict_mem in Hn. rewrite Hget in Hn. discriminate.
Qed.

(** C5: for every book, every name [n] that is not empty (or already has
    a Record) and all phones [p1] and [p2] that pass the validation of
    Phone, the add handler called with [n, p1] and then with [n, p2]
    leaves one Record under [n]: the Record that was there, or a new one,
    with [p1] and [p2] appended to its phones in that order; the keys of
    the book are those it had, with [n] added once when it was new, and
    no other entry changes.  [add_record] on the book instead stores the
    Record it is given under the Record's name, whatever was stored. *)
Theorem add_twice_merges (book : AddressBook) (n p1 p2 : string) :
  n <> "" \/ dict_mem n book = true ->
  re_match_phone p1 = true -> re_match_phone p2 = true ->
  let book2 := snd (add [n; p2] (snd (add [n; p1] book))) in
  let record := record_or_new n book in
  dict_get n book2
  = Some (mkRecord (name record)
            (phones record ++ [mkPhone p1; mkPhone p2]) (birthday record))
  /\ dict_keys book2
     = (if dict_mem n book then dict_keys book else dict_keys book ++ [n])%list
  /\ (forall k, k <> n -> dict_get k book2 = dict_get k book)
  /\ (forall replacement,
        AddressBook_add_record replacement book
        = (inr tt, dict_set (name_value (name replacement)) replacement book)
        /\ dict_get (name_value (name replacement))
             (snd (AddressBook_add_record replacement book))
           = Some replacement).
Proof.
  intros Hn Hp1 Hp2 book2 record. subst book2.
  rewrite (add_valid book n p1 Hn Hp1).
  set (book1 := dict_set n (with_phone (record_or_new n book) p1) book).
  assert (Hget1 : dict_get n book1 = Some (with_phone record p1))
    by apply dict_get_set_same.
  rewrite (add_present book1 n p2 _ Hget1 Hp2). simpl snd.
  repeat split.
  - rewrite dict_get_set_same. unfold with_phone. simpl.
    now rewrite <- app_assoc.
  - rewrite dict_keys_set. unfold dict_mem at 1. rewrite Hget1.
    apply dict_keys_set.
  - intros k Hk. unfold book1.
    rewrite !dict_get_set_other by congruence. reflexivity.
  - simpl. apply dict_get_set_same.
Qed.

Lemma add_twice_merges_witness :
  let book2 :=
    snd (add ["John"; "5555555555"] (snd (add ["John"; "1234567890"] []))) in
  dict_get "John" book2
  = Some (mkRecord (mkName "John")
            [mkPhone "1234567890"; mkPhone "5555555555"] None)
  /\ dict_keys book2 = ["John"].
Proof.
  assert (Hn : "John" <> "" \/ dict_mem "John" (@nil (string * ContactRecord)) = true)
    by (left; discriminate).
  destruct (add_twice_merges [] "John" "1234567890" "5555555555"
              Hn eq_refl eq_refl) as (H1 & H2 & _).
  split; [exact H1 | exact H2].
Defined.

(** Fewer than two arguments: the usage message, and the book as it was. *)
Lemma add_usage (args : list string) (book : AddressBook) :
  (List.length args < 2)%nat ->
  add args book = ("Usage: add [name] [phone]", book).
Proof.
  intros H. unfold add, input_error, add_func.
  destruct (Nat.ltb_spec (List.length args) 2); [reflexivity|lia].
Qed.

(** More than two arguments: the unpacking of [args] raises, and the
    handler returns the text of that error; the book is as it was. *)
Lemma add_too_many (args : list string) (book : AddressBook) :
  (2 < List.length args)%nat ->
  add args book = ("too many values to unpack (expected 2)", book).
Proof.
  intros H. destruct args as [|a [|b [|c args]]]; simpl in H; try lia.
  reflexivity.
Qed.

(** C7: for an argument list of a length other than 2 the add handler is
    claimed to return the usage message.  With the three arguments John,
    1234567890 and 5555555555 the guard [len(args) < 2] does not hold, the
    unpacking into two names raises, and the handler returns the text of
    that error, which is not the usage message; the book is unchanged. *)
Theorem add_three_arguments :
  add ["John"; "1234567890"; "5555555555"] []
  = ("too many values to unpack (expected 2)", [])
  /\ fst (add ["John"; "1234567890"; "5555555555"] [])
     <> "Usage: add [name] [phone]".
Proof. split; [reflexivity | discriminate]. Qed.

(** C10: for every text that is not a valid phone the add handler is
    claimed to return the message of the validation error and to leave
    the book as it was.  The ten digits 1234567890 followed by a newline
    are not ten digits, but the validation of Phone lets them through:
    the handler reports a new contact and the book holds a Record with
    that phone of eleven characters; on a book that has John already,
    the phone is appended to his phones. *)
Theorem add_stores_phone_with_newline :
  ten_digits ("1234567890" ++ LF) = false
  /\ add ["John"; "1234567890" ++ LF] []
     = ("Contact John with phone 1234567890" ++ LF ++ " added.",
        [("John",
          mkRecord (mkName "John") [mkPhone ("1234567890" ++ LF)] None)])
  /\ add ["John"; "1234567890" ++ LF]
       [("John", mkRecord (mkName "John") [mkPhone "5555555555"] None)]
     = ("Phone 1234567890" ++ LF ++ " added to John.",
        [("John",
          mkRecord (mkName "John")
            [mkPhone "5555555555"; mkPhone ("1234567890" ++ LF)] None)]).
Proof. repeat split. Qed.

(** X30: for every book, name [n] and text [p] that the validation of
    Phone refuses, the add handler called with [n, p] returns the message
    of the validation error that was raised and leaves the book exactly
    as it was.  The error is the one of the phone, except for the empty
    name with no Record in the book, where [Record(n)] raises the one of
    the name before the phone is looked at. *)
Theorem add_invalid_phone_atomic (book : AddressBook) (n p : string) :
  re_match_phone p = false ->
  add [n; p] book
  = (if dict_mem n book then "Phone number must be 10 digits long"
     else if String.eqb n "" then "Name cannot be empty"
          else "Phone number must be 10 digits long",
     book).
Proof.
  intros Hp.
  unfold add, input_error, add_func, unpack2, bind, ret, get, lift, on_record.
  cbn [List.length Nat.ltb Nat.leb].
  unfold dict_mem. destruct (dict_get n book) as [record|] eqn:Hget.
  - rewrite Hget, Record_add_phone_rejected by assumption.
    now rewrite (dict_set_get_id n record book Hget).
  - unfold Record_init, Name_init. destruct (String.eqb n ""); [reflexivity|].
    now rewrite Record_add_phone_rejected.
Qed.

Lemma add_invalid_phone_atomic_witness :
  re_match_phone "12345" = false
  /\ add ["John"; "12345"]
       [("John", mkRecord (mkName "John") [mkPhone "1234567890"] None)]
     = ("Phone number must be 10 digits long",
        [("John", mkRecord (mkName "John") [mkPhone "1234567890"] None)])
  /\ add ["Jane"; "12345"]
       [("John", mkRecord (mkName "John") [mkPhone "1234567890"] None)]
     = ("Phone number must be 10 digits long",
        [("John", mkRecord (mkName "John") [mkPhone "1234567890"] None)]).
Proof.
  split; [reflexivity|]. split.
  - exact (add_invalid_phone_atomic
             [("John", mkRecord (mkName "John") [mkPhone "1234567890"] None)]
             "John" "12345" eq_refl).
  - exact (add_invalid_phone_atomic
             [("John", mkRecord (mkName "John") [mkPhone "1234567890"] None)]
             "Jane" "12345" eq_refl).
Defined.

(** ** Upcoming birthdays *)

Lemma date_new_error (y m d : Z) (e : exn) :
  date_new y m d = inl e -> exists msg, e = ValueError msg.
Proof.
  unfold date_new.
  repeat match goal with
         | |- context [if ?b then _ else _] => destruct b
         end; intros H; inversion H; eauto.
Qed.

Lemma upcoming_step_error today record acc (e : exn) :
  upcoming_step today record acc = inl e -> exists msg, e = ValueError msg.
Proof.
  unfold upcoming_step, replace_year.
  destruct (birthday record) as [b|]; [|discriminate].
  destruct (date_new _ _ _) as [e1|this_year] eqn:H1.
  - intros [= ->]. eapply date_new_error, H1.
  - destruct (date_lt this_year today).
    + destruct (date_new (year today + 1) _ _) as [e2|next] eqn:H2.
      * intros [= ->]. eapply date_new_error, H2.
      * destruct (_ && _); discriminate.
    + destruct (_ && _); discriminate.
Qed.

(** The loop raises as soon as one of the records makes its body raise. *)
Lemma upcoming_loop_raises today record :
  (forall acc, exists msg,
      upcoming_step today record acc = inl (ValueError msg)) ->
  forall records acc,
    In record records ->
    exists msg, upcoming_loop today records acc = inl (ValueError msg).
Proof.
  intros Hstep records. induction records as [|r records IH]; intros acc Hin.
  - destruct Hin.
  - simpl. destruct (upcoming_step today r acc) as [e|acc'] eqn:Hr.
    + destruct (upcoming_step_error _ _ _ _ Hr) as [msg ->]. eauto.
    + destruct Hin as [->|Hin]; [|now apply IH].
      destruct (Hstep acc) as [msg Hmsg]. congruence.
Qed.

Lemma date_new_leap_day (y : Z) :
  is_leap y = false -> exists msg, date_new y 2 29 = inl (ValueError msg).
Proof.
  intros Hleap. unfold date_new, days_in_month. rewrite Hleap. simpl.
  destruct (negb _); eauto.
Qed.

Lemma upcoming_step_leap_day today record b acc :
  birthday record = Some b ->
  month (birthday_value b) = 2 -> day (birthday_value b) = 29 ->
  is_leap (rolled_into today) = false ->
  exists msg, upcoming_step today record acc = inl (ValueError msg).
Proof.
  intros Hb Hm Hd Hroll. unfold upcoming_step, replace_year.
  rewrite Hb, Hm, Hd. unfold rolled_into in Hroll.
  destruct (is_leap (year today)) eqn:Hleap.
  - destruct (date_new (year today) 2 29) as [e|this_year] eqn:H1.
    + destruct (date_new_error _ _ _ _ H1) as [msg ->]. eauto.
    + assert (this_year = mkdate (year today) 2 29) as ->.
      { unfold date_new in H1.
        repeat match type of H1 with
               | context [if ?c then _ else _] => destruct c
               end; congruence. }
      simpl in Hroll. simpl month. simpl day.
      destruct (date_lt _ today).
      * destruct (date_new_leap_day _ Hroll) as [msg ->]. eauto.
      * congruence.
  - simpl in Hroll. destruct (date_new_leap_day _ Hleap) as [msg ->]. eauto.
Qed.

(** C9: whenever a book holds a Record whose Birthday is a 29 February and
    the year that birthday is moved into is not a leap year,
    [get_upcoming_birthdays] raises a [ValueError], the one of the
    replacement of the year, and returns no list; the book is as it
    was. *)
Theorem leap_day_birthday_raises
    (today : date) (book : AddressBook) (record : ContactRecord)
    (b : Birthday) :
  In record (dict_values book) ->
  birthday record = Some b ->
  month (birthday_value b) = 2 -> day (birthday_value b) = 29 ->
  is_leap (rolled_into today) = false ->
  exists msg,
    AddressBook_get_upcoming_birthdays today book
    = (inl (ValueError msg), book).
Proof.
  intros Hin Hb Hm Hd Hroll.
  unfold AddressBook_get_upcoming_birthdays, bind, get, lift.
  destruct (upcoming_loop_raises today record
              (fun acc => upcoming_step_leap_day today record b acc
                            Hb Hm Hd Hroll)
              (dict_values book) [] Hin) as [msg ->].
  eauto.
Qed.

Lemma leap_day_birthday_raises_witness :
  exists msg,
    AddressBook_get_upcoming_birthdays (mkdate 2023 2 25) book_ann_bob
    = (inl (ValueError msg), book_ann_bob).
Proof.
  apply (leap_day_birthday_raises (mkdate 2023 2 25) book_ann_bob
           (mkRecord (mkName "Ann") [mkPhone "1234567890"]
              (Some (mkBirthday (mkdate 2000 2 29))))
           (mkBirthday (mkdate 2000 2 29))).
  - simpl. left. reflexivity.
  - reflexivity.
  - reflexivity.
  - reflexivity.
  - reflexivity.
Defined.

Lemma upcoming_step_selected today record acc :
  rolls today record = true ->
  upcoming_step today record acc = inr (acc ++ selected today record)%list.
Proof.
  unfold rolls, selected, upcoming_step, next_birthday.
  destruct (birthday record) as [b|]; [|now rewrite app_nil_r].
  destruct (replace_year (birthday_value b) (year today)) as [e|this_year];
    [discriminate|].
  destruct (date_lt this_year today).
  - destruct (replace_year this_year (year today + 1)) as [e|next];
      [discriminate|].
    intros _. destruct (_ && _); [reflexivity | now rewrite app_nil_r].
  - intros _. destruct (_ && _); [reflexivity | now rewrite app_nil_r].
Qed.

(** On a book in which every birthday can be moved into its year, the
    result is the entries of the Records whose next birthday is 0 to 6
    days away, in the order of the book. *)
Lemma get_upcoming_birthdays_selects (today : date) (book : AddressBook) :
  forallb (rolls today) (dict_values book) = true ->
  AddressBook_get_upcoming_birthdays today book
  = (inr (flat_map (selected today) (dict_values book)), book).
Proof.
  intros H. unfold AddressBook_get_upcoming_birthdays, bind, get, lift.
  f_equal. change (flat_map (selected today) (dict_values book))
    with ([] ++ flat_map (selected today) (dict_values book))%list.
  generalize (@nil upcoming) as acc. revert H.
  induction (dict_values book) as [|record records IH]; simpl; intros H acc.
  - now rewrite app_nil_r.
  - apply andb_true_iff in H as [Hr Hrest].
    rewrite (upcoming_step_selected today record acc Hr), (IH Hrest).
    now rewrite <- app_assoc.
Qed.

(** C3: [get_upcoming_birthdays] is claimed to select, for every book and
    every day, the Records whose next birthday is at most 6 days away.  On
    10 March 2023 the book that holds only Bob, born on a 13 March, gives
    the one entry for Bob with 3 days to go; the book that also holds Ann,
    born on 29 February 2000, gives no list at all: replacing the year of
    her birthday by 2023 raises, Bob is not reported, and the handler
    answers with the text of the error. *)
Theorem upcoming_birthdays_leap_day_book :
  AddressBook_get_upcoming_birthdays (mkdate 2023 3 10) book_bob
  = (inr [mkUpcoming "Bob" "2023-03-13" 3], book_bob)
  /\ dict_keys book_ann_bob = ["Ann"; "Bob"]
  /\ AddressBook_get_upcoming_birthdays (mkdate 2023 3 10) book_ann_bob
     = (inl (ValueError "day is out of range for month"), book_ann_bob)
  /\ birthdays (mkdate 2023 3 10) [] book_ann_bob
     = ("day is out of range for month", book_ann_bob).
Proof. repeat split. Qed.

(** The three cases the specification names: a birthday in 3 days is
    reported with 3, one in 8 days is not reported, one today is reported
    with 0. *)
Example upcoming_in_three_days :
  AddressBook_get_upcoming_birthdays (mkdate 2023 3 10) book_bob
  = (inr [mkUpcoming "Bob" "2023-03-13" 3], book_bob).
Proof. reflexivity. Qed.

Example upcoming_in_eight_days :
  AddressBook_get_upcoming_birthdays (mkdate 2023 3 5) book_bob
  = (inr [], book_bob).
Proof. reflexivity. Qed.

Example upcoming_today :
  AddressBook_get_upcoming_birthdays (mkdate 2023 3 13) book_bob
  = (inr [mkUpcoming "Bob" "2023-03-13" 0], book_bob).
Proof. reflexivity. Qed.

(** A birthday that has passed is looked for in the next year. *)
Example upcoming_next_year :
  AddressBook_get_upcoming_birthdays (mkdate 2023 12 30)
    (snd (add_birthday ["Eve"; "02.01.1985"]
            (snd (add ["Eve"; "1234567890"] []))))
  = (inr [mkUpcoming "Eve" "2024-01-02" 3],
     snd (add_birthday ["Eve"; "02.01.1985"]
            (snd (add ["Eve"; "1234567890"] [])))).
Proof. reflexivity. Qed.

(** ** Names and keys *)

Section Preservation.
Context {S : Type} (P : S -> Prop).

Lemma preserves_ret {A} (a : A) : preserves P (ret a).
Proof. intros s Hs. exact Hs. Qed.

Lemma preserves_raise {A} (e : exn) : preserves P (@raise S A e).
Proof. intros s Hs. exact Hs. Qed.

Lemma preserves_lift {A} (r : exn + A) : preserves P (lift r).
Proof. intros s Hs. exact Hs. Qed.

Lemma preserves_get : preserves P get.
Proof. intros s Hs. exact Hs. Qed.

Lemma preserves_bind {A B} (m : M S A) (k : A -> M S B) :
  preserves P m -> (forall a, preserves P (k a)) -> preserves P (bind m k).
Proof.
  intros Hm Hk s Hs. unfold bind. specialize (Hm s Hs).
  destruct (m s) as [[e|a] s']; simpl in *; [exact Hm|].
  now apply Hk.
Qed.

Lemma preserves_except {A} (body : M S A) (handler : string -> M S A) :
  preserves P body -> (forall msg, preserves P (handler msg)) ->
  preserves P (except_ValueError body handler).
Proof.
  intros Hbody Hhandler s Hs. unfold except_ValueError.
  specialize (Hbody s Hs).
  destruct (body s) as [[[msg|msg|key]|a] s']; simpl in *; try exact Hbody.
  now apply Hhandler.
Qed.

Lemma preserves_input_error (func : M S string) :
  preserves P func -> forall s, P s -> P (snd (input_error func s)).
Proof.
  intros Hfunc s Hs. unfold input_error. specialize (Hfunc s Hs).
  destruct (func s) as [[e|result] s']; exact Hfunc.
Qed.
End Preservation.

Lemma names_match_keys_set (book : AddressBook) record :
  names_match_keys book = true ->
  names_match_keys (dict_set (name_value (name record)) record book) = true.
Proof.
  unfold names_match_keys.
  induction book as [|[k r] book IH]; simpl; intros H.
  - now rewrite String.eqb_refl.
  - apply andb_true_iff in H as [Hk Hrest].
    destruct (String.eqb_spec k (name_value (name record))) as [->|]; simpl.
    + now rewrite String.eqb_refl.
    + rewrite Hk. now apply IH.
Qed.

Lemma names_match_keys_del (book : AddressBook) (n : string) :
  names_match_keys book = true -> names_match_keys (dict_del n book) = true.
Proof.
  unfold names_match_keys.
  induction book as [|[k r] book IH]; simpl; intros H; [reflexivity|].
  apply andb_true_iff in H as [Hk Hrest].
  destruct (String.eqb k n); [exact Hrest|]. simpl. rewrite Hk. now apply IH.
Qed.

Lemma names_match_keys_get (book : AddressBook) (n : string) record :
  names_match_keys book = true -> dict_get n book = Some record ->
  name_value (name record) = n.
Proof.
  unfold names_match_keys.
  induction book as [|[k r] book IH]; simpl; intros H; [discriminate|].
  apply andb_true_iff in H as [Hk Hrest].
  destruct (String.eqb_spec k n) as [->|].
  - intros [= ->]. now apply String.eqb_eq.
  - now apply IH.
Qed.

(** No method of a Record changes its name. *)

Lemma Record_add_phone_name nm phone :
  preserves (named nm) (Record_add_phone phone).
Proof.
  intros record H. unfold Record_add_phone, bind, lift, get, put.
  destruct (Phone_init phone); exact H.
Qed.

Lemma Record_remove_phone_name nm phone :
  preserves (named nm) (Record_remove_phone phone).
Proof.
  intros record H. unfold Record_remove_phone, bind, get, put, ret. simpl.
  destruct (first_phone phone (phones record)); exact H.
Qed.

Lemma Record_edit_phone_name nm old_phone new_phone :
  preserves (named nm) (Record_edit_phone old_phone new_phone).
Proof.
  unfold Record_edit_phone. apply preserves_bind; [apply preserves_get|].
  intros self. destruct (first_phone old_phone (phones self)).
  - apply preserves_bind; [apply Record_remove_phone_name|].
    intros _. apply Record_add_phone_name.
  - apply preserves_ret.
Qed.

Lemma Record_find_phone_name nm phone :
  preserves (named nm) (Record_find_phone phone).
Proof. intros record H. exact H. Qed.

Lemma Record_add_birthday_name nm b :
  preserves (named nm) (Record_add_birthday b).
Proof. intros record H. exact H. Qed.

Lemma run_method_name (m : record_method) (record : ContactRecord) :
  name (snd (run_method m record)) = name record.
Proof.
  assert (H : preserves (named (name record)) (run_method m)).
  { destruct m; simpl.
    - apply Record_add_phone_name.
    - apply Record_remove_phone_name.
    - apply Record_edit_phone_name.
    - apply preserves_bind; [apply Record_find_phone_name|].
      intros _. apply preserves_ret.
    - apply Record_add_birthday_name. }
  now apply H.
Qed.

Lemma preserves_add_record record :
  preserves keys_ok (AddressBook_add_record record).
Proof. intros book H. now apply names_match_keys_set. Qed.

Lemma preserves_find (n : string) : preserves keys_ok (AddressBook_find n).
Proof. intros book H. exact H. Qed.

Lemma preserves_delete (n : string) : preserves keys_ok (AddressBook_delete n).
Proof.
  intros book H. unfold AddressBook_delete, bind, get, put, ret.
  destruct (dict_mem n book); [now apply names_match_keys_del | exact H].
Qed.

Lemma preserves_on_record {A} (n : string) (method : M ContactRecord A) :
  (forall record, name (snd (method record)) = name record) ->
  preserves keys_ok (on_record n method).
Proof.
  intros Hname book H. unfold on_record.
  destruct (dict_get n book) as [record|] eqn:Hget; [|exact H].
  specialize (Hname record).
  destruct (method record) as [result record']. simpl in *.
  rewrite <- (names_match_keys_get book n record H Hget), <- Hname.
  now apply names_match_keys_set.
Qed.

Lemma preserves_upcoming (today : date) :
  preserves keys_ok (AddressBook_get_upcoming_birthdays today).
Proof. intros book H. exact H. Qed.

Lemma preserves_unpack2 (args : list string) :
  preserves keys_ok (@unpack2 AddressBook args).
Proof. intros book H. unfold unpack2. now destruct args as [|a [|b [|c l]]]. Qed.

Lemma preserves_unpack3 (args : list string) :
  preserves keys_ok (@unpack3 AddressBook args).
Proof.
  intros book H. unfold unpack3. now destruct args as [|a [|b [|c [|d l]]]].
Qed.

Lemma preserves_index0 (args : list string) :
  preserves keys_ok (@index0 AddressBook args).
Proof. intros book H. unfold index0. now destruct args. Qed.

Create HintDb preserve.
#[local] Hint Resolve preserves_ret preserves_raise preserves_lift
  preserves_get preserves_add_record preserves_find preserves_delete
  preserves_upcoming preserves_unpack2 preserves_unpack3 preserves_index0
  : preserve.

(** Splits a computation into its steps and branches. *)
Ltac preserve_steps :=
  repeat first
    [ solve [auto with preserve]
    | apply preserves_bind; [|intros ?]
    | apply preserves_except; [|intros ?]
    | apply preserves_on_record; intros ?
    | match goal with
      | |- preserves _ (if ?b then _ else _) => destruct b
      | |- preserves _ (match ?x with _ => _ end) => destruct x
      end ].

Lemma preserves_func (c : command) (today : date) (args : list string) :
  preserves keys_ok (func_of c today args).
Proof.
  destruct c; simpl;
    unfold add_func, change_func, phone_func, all_contacts_func,
      add_birthday_func, show_birthday_func, birthdays_func;
    preserve_steps;
    try apply (run_method_name (call_add_phone _));
    try apply (run_method_name (call_edit_phone _ _));
    try apply (run_method_name (call_add_birthday _)).
Qed.

Lemma preserves_handler c today args (book : AddressBook) :
  keys_ok book -> keys_ok (snd (handler c today args book)).
Proof.
  intros H.
  replace (handler c today args) with (input_error (func_of c today args))
    by (destruct c; reflexivity).
  apply (preserves_input_error keys_ok); [apply preserves_func | exact H].
Qed.

Lemma run_operation_keys (op : operation) (book : AddressBook) :
  keys_ok book -> keys_ok (run_operation op book).
Proof.
  intros H. destruct op; simpl.
  - now apply preserves_add_record.
  - exact H.
  - now apply preserves_delete.
  - apply preserves_on_record; [apply run_method_name | exact H].
  - now apply preserves_handler.
Qed.

(** C8: in every book reached from a book in which each Record's name is
    its key (the empty book is one; so is a book that was saved in such a
    state and loaded again) by any sequence of [add_record], [find],
    [delete], method calls on the Records [find] returned, and handler
    calls, each Record's name is the key it is stored under. *)
Theorem names_match_keys_reachable
    (ops : list operation) (book : AddressBook) :
  names_match_keys book = true ->
  names_match_keys (run_operations ops book) = true.
Proof.
  unfold run_operations. revert book.
  induction ops as [|op ops IH]; intros book H; simpl; [exact H|].
  apply IH. now apply run_operation_keys.
Qed.

Lemma names_match_keys_reachable_witness :
  names_match_keys [] = true
  /\ names_match_keys
       (run_operations
          [op_handler cmd_add (mkdate 2023 3 10) ["John"; "1234567890"];
           op_add_record (mkRecord (mkName "Jane") [] None);
           op_method "John" (call_edit_phone "1234567890" "111");
           op_handler cmd_add_birthday (mkdate 2023 3 10) ["Jane"; "15.08.1992"];
           op_add_record (mkRecord (mkName "John") [] None);
           op_delete "Jane"]
          []) = true.
Proof.
  split; [reflexivity|].
  apply (names_match_keys_reachable _ []). reflexivity.
Defined.

(** * Further properties of the code *)

(** ** Phone and the methods of Record *)

(** X1: constructing a Phone succeeds exactly on the texts of ten digits
    and on the texts of ten digits followed by one newline; on every
    other text it raises the [ValueError] that a phone must be 10 digits
    long. *)
Theorem Phone_init_characterised (p : string) :
  (Phone_init p = inr (mkPhone p) <->
   ten_digits p = true \/ exists q, ten_digits q = true /\ p = q ++ LF)
  /\ (Phone_init p = inr (mkPhone p)
      \/ Phone_init p = inl (ValueError "Phone number must be 10 digits long")).
Proof.
  split.
  - rewrite <- re_match_phone_iff. unfold Phone_init, validate_phone.
    destruct (re_match_phone p); simpl; split; intros H;
      reflexivity || discriminate H.
  - destruct (re_match_phone p) eqn:H.
    + left. now apply Phone_init_accepted.
    + right. now apply Phone_init_rejected.
Qed.

Lemma first_phone_absent (v : string) (ps : list Phone) :
  ~ In v (map phone_value ps) -> first_phone v ps = None.
Proof.
  unfold first_phone, has_value.
  induction ps as [|p ps IH]; simpl; intros H; [reflexivity|].
  destruct (String.eqb_spec (phone_value p) v) as [E|E]; [tauto|].
  apply IH. tauto.
Qed.

Lemma first_phone_present (v : string) (ps : list Phone) :
  In v (map phone_value ps) -> exists p, first_phone v ps = Some p.
Proof.
  unfold first_phone, has_value.
  induction ps as [|p ps IH]; simpl; intros H; [destruct H|].
  destruct (String.eqb_spec (phone_value p) v) as [E|E]; [eauto|].
  apply IH. tauto.
Qed.

Lemma remove_first_absent (v : string) (ps : list Phone) :
  ~ In v (map phone_value ps) -> remove_first v ps = ps.
Proof.
  unfold has_value.
  induction ps as [|p ps IH]; simpl; intros H; [reflexivity|].
  unfold has_value.
  destruct (String.eqb_spec (phone_value p) v) as [E|E]; [tauto|].
  rewrite IH by tauto. reflexivity.
Qed.

Lemma remove_first_split (v : string) (l1 l2 : list Phone) (p : Phone) :
  phone_value p = v -> ~ In v (map phone_value l1) ->
  remove_first v (l1 ++ p :: l2) = (l1 ++ l2)%list.
Proof.
  intros Hp. induction l1 as [|q l1 IH]; simpl; intros H; unfold has_value.
  - rewrite Hp, String.eqb_refl. reflexivity.
  - destruct (String.eqb_spec (phone_value q) v) as [E|E]; [tauto|].
    rewrite IH by tauto. reflexivity.
Qed.

Lemma first_phone_split (v : string) (l1 l2 : list Phone) (p : Phone) :
  phone_value p = v -> ~ In v (map phone_value l1) ->
  first_phone v (l1 ++ p :: l2) = Some p.
Proof.
  intros Hp. unfold first_phone.
  induction l1 as [|q l1 IH]; simpl; intros H; unfold has_value.
  - rewrite Hp, String.eqb_refl. reflexivity.
  - destruct (String.eqb_spec (phone_value q) v) as [E|E]; [tauto|].
    apply IH. tauto.
Qed.

Lemma record_eta (record : ContactRecord) :
  mkRecord (name record) (phones record) (birthday record) = record.
Proof. now destruct record. Qed.

(** What [remove_phone] does to a Record whose first phone of value [v]
    stands between [l1] and [l2]. *)
Lemma Record_remove_phone_split v record l1 p l2 :
  phones record = (l1 ++ p :: l2)%list -> phone_value p = v ->
  ~ In v (map phone_value l1) ->
  Record_remove_phone v record
  = (inr tt, mkRecord (name record) (l1 ++ l2) (birthday record)).
Proof.
  intros Hps Hp Hl1. unfold Record_remove_phone, bind, get, put.
  rewrite Hps, first_phone_split, remove_first_split by assumption.
  reflexivity.
Qed.

Lemma Record_remove_phone_absent v record :
  ~ In v (phone_values record) ->
  Record_remove_phone v record = (inr tt, record).
Proof.
  intros H. unfold Record_remove_phone, bind, get, put, ret.
  now rewrite first_phone_absent.
Qed.

(** X2: [remove_phone] never raises and changes neither the name nor the
    birthday; it takes out the first phone of the given value and no
    other (a second phone of the same value stays), and leaves the
    Record as it is when no phone has that value. *)
Theorem remove_phone_first_occurrence (v : string) (record : ContactRecord) :
  exists record',
    Record_remove_phone v record = (inr tt, record')
    /\ name record' = name record
    /\ birthday record' = birthday record
    /\ (~ In v (phone_values record) -> record' = record)
    /\ (forall l1 p l2,
          phones record = (l1 ++ p :: l2)%list -> phone_value p = v ->
          ~ In v (map phone_value l1) ->
          phones record' = (l1 ++ l2)%list).
Proof.
  destruct (in_dec string_dec v (phone_values record)) as [Hin|Hout].
  - destruct (first_phone_present _ _ Hin) as [p Hp].
    exists (mkRecord (name record) (remove_first v (phones record))
              (birthday record)).
    unfold Record_remove_phone, bind, get, put. rewrite Hp.
    repeat split; try tauto.
    intros l1 q l2 Hps Hq Hl1. simpl. rewrite Hps.
    now apply remove_first_split.
  - exists record. rewrite Record_remove_phone_absent by assumption.
    repeat split.
    intros l1 q l2 Hps Hq Hl1. exfalso. apply Hout.
    unfold phone_values. rewrite Hps, map_app. apply in_or_app. right.
    simpl. now left.
Qed.

(** X3: when no phone of the Record has the value [old_phone],
    [edit_phone] returns without an error and without a change, whatever
    [new_phone] is: the new phone is not validated. *)
Theorem edit_phone_absent_is_silent
    (old_phone new_phone : string) (record : ContactRecord) :
  ~ In old_phone (phone_values record) ->
  Record_edit_phone old_phone new_phone record = (inr tt, record).
Proof.
  intros H. unfold Record_edit_phone, bind, get, ret.
  now rewrite first_phone_absent.
Qed.

Lemma edit_phone_absent_is_silent_witness :
  Record_edit_phone "0000000000" "not a phone"
    (mkRecord (mkName "John") [mkPhone "1234567890"] None)
  = (inr tt, mkRecord (mkName "John") [mkPhone "1234567890"] None).
Proof.
  apply (edit_phone_absent_is_silent "0000000000" "not a phone").
  simpl. intros [H|[]]. discriminate H.
Defined.

(** With the old phone there, [edit_phone] is [add_phone] on the Record
    without it. *)
Lemma Record_edit_phone_present old_phone new_phone record l1 p l2 :
  phones record = (l1 ++ p :: l2)%list -> phone_value p = old_phone ->
  ~ In old_phone (map phone_value l1) ->
  Record_edit_phone old_phone new_phone record
  = Record_add_phone new_phone
      (mkRecord (name record) (l1 ++ l2) (birthday record)).
Proof.
  intros Hps Hp Hl1.
  assert (Hfirst : first_phone old_phone (phones record) = Some p)
    by (rewrite Hps; now apply first_phone_split).
  unfold Record_edit_phone, bind, get. rewrite Hfirst.
  now rewrite (Record_remove_phone_split _ _ l1 p l2).
Qed.

(** X4: when the Record has a phone of the value [old_phone] and
    [new_phone] does not pass the validation, [edit_phone] raises the
    [ValueError] of the phone after it has removed the old phone: the
    Record is left with one phone less. *)
Theorem edit_phone_invalid_new_drops_old
    (old_phone new_phone : string) (record : ContactRecord) l1 p l2 :
  phones record = (l1 ++ p :: l2)%list -> phone_value p = old_phone ->
  ~ In old_phone (map phone_value l1) ->
  re_match_phone new_phone = false ->
  Record_edit_phone old_phone new_phone record
  = (inl (ValueError "Phone number must be 10 digits long"),
     mkRecord (name record) (l1 ++ l2) (birthday record)).
Proof.
  intros Hps Hp Hl1 Hnew.
  rewrite (Record_edit_phone_present _ _ _ l1 p l2) by assumption.
  now rewrite Record_add_phone_rejected.
Qed.

Lemma edit_phone_invalid_new_drops_old_witness :
  Record_edit_phone "1234567890" "12345"
    (mkRecord (mkName "John") [mkPhone "1234567890"; mkPhone "5555555555"]
       None)
  = (inl (ValueError "Phone number must be 10 digits long"),
     mkRecord (mkName "John") [mkPhone "5555555555"] None).
Proof.
  apply (edit_phone_invalid_new_drops_old "1234567890" "12345"
           (mkRecord (mkName "John")
              [mkPhone "1234567890"; mkPhone "5555555555"] None)
           [] (mkPhone "1234567890") [mkPhone "5555555555"]).
  - reflexivity.
  - reflexivity.
  - simpl. tauto.
  - reflexivity.
Defined.

(** X5: when the Record has a phone of the value [old_phone] and
    [new_phone] passes the validation, [edit_phone] takes the first such
    phone out and puts the new phone at the end: the other phones keep
    their order, and the number of phones is the same. *)
Theorem edit_phone_moves_to_end
    (old_phone new_phone : string) (record : ContactRecord) l1 p l2 :
  phones record = (l1 ++ p :: l2)%list -> phone_value p = old_phone ->
  ~ In old_phone (map phone_value l1) ->
  re_match_phone new_phone = true ->
  Record_edit_phone old_phone new_phone record
  = (inr tt,
     mkRecord (name record) (l1 ++ l2 ++ [mkPhone new_phone])
       (birthday record))
  /\ List.length (l1 ++ l2 ++ [mkPhone new_phone])
     = List.length (phones record).
Proof.
  intros Hps Hp Hl1 Hnew. split.
  - rewrite (Record_edit_phone_present _ _ _ l1 p l2) by assumption.
    rewrite Record_add_phone_accepted by assumption.
    unfold with_phone. simpl. now rewrite <- app_assoc.
  - rewrite Hps, !length_app. simpl. lia.
Qed.

Lemma edit_phone_moves_to_end_witness :
  Record_edit_phone "1234567890" "1112223333"
    (mkRecord (mkName "John")
       [mkPhone "5555555555"; mkPhone "1234567890"; mkPhone "9876543210"]
       None)
  = (inr tt,
     mkRecord (mkName "John")
       [mkPhone "5555555555"; mkPhone "9876543210"; mkPhone "1112223333"]
       None).
Proof.
  apply (edit_phone_moves_to_end "1234567890" "1112223333"
           (mkRecord (mkName "John")
              [mkPhone "5555555555"; mkPhone "1234567890";
               mkPhone "9876543210"] None)
           [mkPhone "5555555555"] (mkPhone "1234567890")
           [mkPhone "9876543210"]).
  - reflexivity.
  - reflexivity.
  - simpl. intros [H|[]]. discriminate H.
  - reflexivity.
Defined.

Lemma Record_find_phone_present (v : string) (record : ContactRecord) :
  In v (phone_values record) ->
  Record_find_phone v record = (inr (Some v), record).
Proof.
  intros Hin. unfold Record_find_phone, bind, get, ret.
  destruct (first_phone_present _ _ Hin) as [p Hp]. rewrite Hp. simpl.
  unfold first_phone in Hp. apply find_some in Hp as [_ Hv].
  unfold has_value in Hv. apply String.eqb_eq in Hv. now rewrite Hv.
Qed.

Lemma Record_find_phone_absent (v : string) (record : ContactRecord) :
  ~ In v (phone_values record) ->
  Record_find_phone v record = (inr None, record).
Proof.
  intros Hout. unfold Record_find_phone, bind, get, ret.
  now rewrite first_phone_absent.
Qed.

(** X6: [find_phone] leaves the Record as it is and never raises; it
    returns the value asked for when a phone of the Record has it, and
    None otherwise. *)
Theorem find_phone_returns_value (v : string) (record : ContactRecord) :
  Record_find_phone v record
  = (inr (if in_dec string_dec v (phone_values record) then Some v else None),
     record).
Proof.
  destruct (in_dec string_dec v (phone_values record)) as [Hin|Hout].
  - now apply Record_find_phone_present.
  - now apply Record_find_phone_absent.
Qed.

(** X7: a phone that was added is found, and removing a phone that was
    added to a Record that did not have it gives the Record back. *)
Theorem add_phone_find_remove (p : string) (record : ContactRecord) :
  re_match_phone p = true ->
  (Record_add_phone p ;; Record_find_phone p) record
  = (inr (Some p), with_phone record p)
  /\ (~ In p (phone_values record) ->
      (Record_add_phone p ;; Record_remove_phone p) record
      = (inr tt, record)).
Proof.
  intros Hp. unfold bind. rewrite Record_add_phone_accepted by assumption.
  split.
  - apply Record_find_phone_present. unfold phone_values, with_phone. simpl.
    rewrite map_app. apply in_or_app. right. now left.
  - intros Hout.
    rewrite (Record_remove_phone_split p (with_phone record p)
               (phones record) (mkPhone p) []); try reflexivity; try assumption.
    simpl. rewrite app_nil_r. now rewrite record_eta.
Qed.

Lemma add_phone_find_remove_witness :
  (Record_add_phone "5555555555" ;; Record_find_phone "5555555555")
    (mkRecord (mkName "John") [mkPhone "1234567890"] None)
  = (inr (Some "5555555555"),
     mkRecord (mkName "John") [mkPhone "1234567890"; mkPhone "5555555555"]
       None).
Proof.
  exact (proj1 (add_phone_find_remove "5555555555"
                  (mkRecord (mkName "John") [mkPhone "1234567890"] None)
                  eq_refl)).
Defined.

Lemma forallb_remove_first (f : Phone -> bool) v ps :
  forallb f ps = true -> forallb f (remove_first v ps) = true.
Proof.
  induction ps as [|p ps IH]; simpl; intros H; [reflexivity|].
  apply andb_true_iff in H as [Hp Hps].
  destruct (has_value v p); [exact Hps|]. simpl. rewrite Hp. now apply IH.
Qed.

Lemma Record_add_phone_valid phone :
  preserves (fun r => phones_valid r = true) (Record_add_phone phone).
Proof.
  intros record H. unfold Record_add_phone, bind, lift, get, put.
  destruct (re_match_phone phone) eqn:Hp.
  - rewrite (Phone_init_accepted _ Hp). unfold phones_valid in *. simpl.
    rewrite forallb_app, H. simpl. now rewrite Hp.
  - rewrite (Phone_init_rejected _ Hp). exact H.
Qed.

Lemma Record_remove_phone_valid phone :
  preserves (fun r => phones_valid r = true) (Record_remove_phone phone).
Proof.
  intros record H. unfold Record_remove_phone, bind, get, put, ret. simpl.
  destruct (first_phone phone (phones record)); [|exact H].
  now apply forallb_remove_first.
Qed.

Lemma run_method_valid (m : record_method) :
  preserves (fun r => phones_valid r = true) (run_method m).
Proof.
  destruct m; simpl.
  - apply Record_add_phone_valid.
  - apply Record_remove_phone_valid.
  - unfold Record_edit_phone. apply preserves_bind; [apply preserves_get|].
    intros self. destruct (first_phone old_phone (phones self)).
    + apply preserves_bind; [apply Record_remove_phone_valid|].
      intros _. apply Record_add_phone_valid.
    + apply preserves_ret.
  - intros record H. exact H.
  - intros record H. exact H.
Qed.

(** X8: a Record all of whose phones pass the validation of Phone still
    is one after any of its methods, whether the method returned or
    raised: no method stores a text the validation refuses. *)
Theorem methods_keep_phones_valid (m : record_method) (record : ContactRecord) :
  phones_valid record = true ->
  phones_valid (snd (run_method m record)) = true.
Proof. intros H. now apply run_method_valid. Qed.

Lemma methods_keep_phones_valid_witness :
  phones_valid
    (snd (run_method (call_edit_phone "1234567890" "12345")
            (mkRecord (mkName "John")
               [mkPhone "1234567890"; mkPhone "5555555555"] None)))
  = true.
Proof.
  apply (methods_keep_phones_valid (call_edit_phone "1234567890" "12345")).
  reflexivity.
Defined.

(** ** The methods of AddressBook *)

Lemma dict_get_absent_key {V} (k : string) (d : dict V) :
  existsb (String.eqb k) (dict_keys d) = false -> dict_get k d = None.
Proof.
  induction d as [|[k' v] d IH]; simpl; intros H; [reflexivity|].
  apply orb_false_iff in H as [Hk Hrest].
  rewrite String.eqb_sym, Hk. now apply IH.
Qed.

Lemma dict_get_del_same {V} (k : string) (d : dict V) :
  unique (dict_keys d) = true -> dict_get k (dict_del k d) = None.
Proof.
  induction d as [|[k' v] d IH]; simpl; intros H; [reflexivity|].
  apply andb_true_iff in H as [Hk Hrest]. apply negb_true_iff in Hk.
  destruct (String.eqb_spec k' k) as [->|Hne].
  - now apply dict_get_absent_key.
  - simpl. destruct (String.eqb_spec k' k); [contradiction|]. now apply IH.
Qed.

Lemma dict_get_del_other {V} (k k' : string) (d : dict V) :
  k <> k' -> dict_get k' (dict_del k d) = dict_get k' d.
Proof.
  intros Hne. induction d as [|[k0 v] d IH]; simpl; [reflexivity|].
  destruct (String.eqb_spec k0 k) as [->|].
  - destruct (String.eqb_spec k k'); [contradiction|reflexivity].
  - simpl. destruct (String.eqb k0 k'); [reflexivity|exact IH].
Qed.

Lemma dict_del_absent {V} (k : string) (d : dict V) :
  dict_get k d = None -> dict_del k d = d.
Proof.
  induction d as [|[k' v] d IH]; simpl; [reflexivity|].
  destruct (String.eqb k' k); [discriminate|].
  intros H. now rewrite IH.
Qed.

Lemma dict_del_set_absent {V} (k : string) (v : V) (d : dict V) :
  dict_get k d = None -> dict_del k (dict_set k v d) = d.
Proof.
  induction d as [|[k' v'] d IH]; simpl.
  - now rewrite String.eqb_refl.
  - destruct (String.eqb k' k) eqn:E; [discriminate|].
    intros H. simpl. rewrite E. now rewrite IH.
Qed.

(** X9: [delete] never raises; after [delete(n)] on a book (whose keys,
    being those of a dict, are pairwise different) [find(n)] returns
    None and every other name finds what it found before; and on a name
    that is not in the book [delete] changes nothing. *)
Theorem delete_then_find (n : string) (book : AddressBook) :
  unique_keys book = true ->
  exists book',
    AddressBook_delete n book = (inr tt, book')
    /\ AddressBook_find n book' = (inr None, book')
    /\ (forall k, k <> n ->
          AddressBook_find k book' = (inr (dict_get k book), book'))
    /\ (dict_mem n book = false -> book' = book).
Proof.
  intros Hu. unfold AddressBook_delete, AddressBook_find, bind, get, put, ret.
  destruct (dict_mem n book) eqn:Hmem.
  - exists (dict_del n book). repeat split.
    + now rewrite dict_get_del_same.
    + intros k Hk. now rewrite dict_get_del_other by congruence.
    + discriminate.
  - exists book. apply dict_mem_false in Hmem. repeat split.
    + now rewrite Hmem.
Qed.

Lemma delete_then_find_witness :
  exists book',
    AddressBook_delete "Jane" book_ann_bob = (inr tt, book')
    /\ AddressBook_find "Jane" book' = (inr None, book')
    /\ AddressBook_delete "Ann" book_ann_bob = (inr tt, book_bob).
Proof.
  destruct (delete_then_find "Jane" book_ann_bob eq_refl)
    as (book' & H1 & H2 & _).
  exists book'. repeat split; [exact H1 | exact H2].
Defined.

(** X10: [add_record] of a Record whose name is not in the book, followed
    by [delete] of that name, gives the book back as it was. *)
Theorem add_record_then_delete (record : ContactRecord) (book : AddressBook) :
  dict_mem (name_value (name record)) book = false ->
  (AddressBook_add_record record ;;
   AddressBook_delete (name_value (name record))) book
  = (inr tt, book).
Proof.
  intros Hmem. apply dict_mem_false in Hmem.
  unfold AddressBook_add_record, AddressBook_delete, bind, get, put, ret.
  unfold dict_mem. rewrite dict_get_set_same.
  now rewrite dict_del_set_absent.
Qed.

Lemma add_record_then_delete_witness :
  (AddressBook_add_record (mkRecord (mkName "Jane") [] None) ;;
   AddressBook_delete "Jane") book_bob
  = (inr tt, book_bob).
Proof.
  apply (add_record_then_delete (mkRecord (mkName "Jane") [] None) book_bob).
  reflexivity.
Defined.

(** ** The arithmetic of the next birthday *)

Lemma date_new_inv (y m d : Z) (x : date) :
  date_new y m d = inr x ->
  x = mkdate y m d
  /\ 1 <= y <= 9999 /\ 1 <= m <= 12 /\ 1 <= d <= days_in_month y m.
Proof.
  unfold date_new, MINYEAR, MAXYEAR.
  destruct ((1 <=? y) && (y <=? 9999)) eqn:Hy; simpl; [|discriminate].
  destruct ((1 <=? m) && (m <=? 12)) eqn:Hm; simpl; [|discriminate].
  destruct ((1 <=? d) && (d <=? days_in_month y m)) eqn:Hd; simpl;
    [|discriminate].
  intros [= <-].
  apply andb_true_iff in Hy as [? ?]. apply andb_true_iff in Hm as [? ?].
  apply andb_true_iff in Hd as [? ?]. repeat split; lia.
Qed.

Lemma date_new_fields (y m d : Z) :
  1 <= y <= 9999 -> 1 <= m <= 12 -> 1 <= d <= days_in_month y m ->
  date_new y m d = inr (mkdate y m d).
Proof.
  intros Hy Hm Hd. unfold date_new, MINYEAR, MAXYEAR.
  replace ((1 <=? y) && (y <=? 9999)) with true
    by (symmetry; apply andb_true_iff; split; lia).
  replace ((1 <=? m) && (m <=? 12)) with true
    by (symmetry; apply andb_true_iff; split; lia).
  replace ((1 <=? d) && (d <=? days_in_month y m)) with true
    by (symmetry; apply andb_true_iff; split; lia).
  reflexivity.
Qed.

Lemma date_ok_fields (d : date) :
  date_ok d = true ->
  1 <= year d <= 9999 /\ 1 <= month d <= 12
  /\ 1 <= day d <= days_in_month (year d) (month d).
Proof.
  unfold date_ok. intros H. apply date_new_real in H.
  apply date_new_inv in H. tauto.
Qed.

Ltac month_cases m :=
  let H := fresh "Hcases" in
  assert (H : m = 1 \/ m = 2 \/ m = 3 \/ m = 4 \/ m = 5 \/ m = 6 \/ m = 7
              \/ m = 8 \/ m = 9 \/ m = 10 \/ m = 11 \/ m = 12) by lia;
  repeat (destruct H as [H | H]); subst m.

(** Evaluates the tables of the months at a known month. *)
Ltac month_tables :=
  cbv [days_before_month days_in_month DAYS_BEFORE_MONTH DAYS_IN_MONTH nth
       Z.to_nat Pos.to_nat Pos.iter_op Nat.add Z.eqb Z.ltb Z.compare
       Pos.eqb Pos.compare Pos.compare_cont andb] in *.

Lemma days_before_year_succ (y : Z) :
  days_before_year (y + 1)
  = days_before_year y + 365 + (if is_leap y then 1 else 0).
Proof.
  unfold days_before_year, is_leap.
  replace (y + 1 - 1) with y by lia.
  destruct (Z.eqb_spec (y mod 4) 0), (Z.eqb_spec (y mod 100) 0),
    (Z.eqb_spec (y mod 400) 0); simpl;
    Z.div_mod_to_equations; lia.
Qed.

(** The day of the year lies within the year. *)
Lemma day_of_year_bounds (y m d : Z) :
  1 <= m <= 12 -> 1 <= d <= days_in_month y m ->
  1 <= days_before_month y m + d <= 365 + (if is_leap y then 1 else 0).
Proof.
  intros Hm Hd. month_cases m; month_tables; destruct (is_leap y); lia.
Qed.

(** Within a year, an earlier month and day is an earlier day of the
    year. *)
Lemma day_of_year_lt (y m1 d1 m2 d2 : Z) :
  1 <= m1 <= 12 -> 1 <= m2 <= 12 ->
  1 <= d1 <= days_in_month y m1 -> 1 <= d2 ->
  m1 < m2 \/ (m1 = m2 /\ d1 < d2) ->
  days_before_month y m1 + d1 < days_before_month y m2 + d2.
Proof.
  intros Hm1 Hm2 Hd1 Hd2 Hlt. month_cases m1; month_cases m2;
    try lia; month_tables; destruct (is_leap y); lia.
Qed.

Lemma days_before_month_years (y y' m : Z) :
  1 <= m <= 12 -> days_before_month y' m <= days_before_month y m + 1.
Proof.
  intros Hm. month_cases m; month_tables;
    destruct (is_leap y), (is_leap y'); lia.
Qed.

Lemma date_lt_same_year (y m d : Z) (today : date) :
  year today = y ->
  date_lt (mkdate y m d) today
  = (m <? month today) || ((m =? month today) && (d <? day today)).
Proof.
  intros <-. unfold date_lt. simpl.
  now rewrite Z.ltb_irrefl, Z.eqb_refl.
Qed.

(** X11: the next birthday the loop of [get_upcoming_birthdays] computes
    is never before today and never more than 366 days after it: for
    every date [today] of the calendar and every birthday whose year can
    be replaced, the number of days until the next birthday is between 0
    and 366. *)
Theorem next_birthday_not_in_the_past (today born next : date) :
  date_ok today = true ->
  next_birthday today born = inr next ->
  0 <= days_between next today <= 366.
Proof.
  intros Htoday. apply date_ok_fields in Htoday as (Hy & Hmt & Hdt).
  unfold next_birthday, replace_year.
  destruct (date_new (year today) (month born) (day born))
    as [e|this_year] eqn:H1; [discriminate|].
  apply date_new_inv in H1 as (-> & _ & Hm & Hd).
  rewrite (date_lt_same_year _ _ _ today eq_refl).
  pose proof (day_of_year_bounds _ _ _ Hmt Hdt) as Bt.
  pose proof (day_of_year_bounds _ _ _ Hm Hd) as Bb.
  destruct ((month born <? month today)
            || ((month born =? month today) && (day born <? day today)))
    eqn:Hlt.
  - simpl month. simpl day. intros H2.
    apply date_new_inv in H2 as (-> & _ & _ & Hd').
    pose proof (day_of_year_bounds _ _ _ Hm Hd') as Bn.
    assert (Hlt' : month born < month today
                   \/ (month born = month today /\ day born < day today)).
    { apply orb_true_iff in Hlt as [H|H]; [left; lia|].
      apply andb_true_iff in H as [? ?]. right. lia. }
    pose proof (day_of_year_lt (year today) _ _ _ _ Hm Hmt Hd
                  (proj1 Hdt) Hlt') as Hmono.
    pose proof (days_before_month_years (year today) (year today + 1)
                  _ Hm) as Hshift.
    unfold days_between, toordinal, ymd2ord. simpl.
    rewrite days_before_year_succ.
    destruct (is_leap (year today)), (is_leap (year today + 1)); lia.
  - intros [= <-].
    assert (Hge : ~ (month born < month today
                     \/ (month born = month today /\ day born < day today))).
    { apply orb_false_iff in Hlt as [H1 H2].
      apply andb_false_iff in H2. intros [H|[H H']]; [lia|].
      destruct H2 as [H2|H2]; lia. }
    assert (Hmono : days_before_month (year today) (month today) + day today
                    <= days_before_month (year today) (month born) + day born).
    { destruct (Z.eq_dec (month born) (month today)) as [E|E].
      - rewrite E in *. lia.
      - assert (Hlt' : month today < month born
                       \/ (month today = month born /\ day today < day born))
          by (left; lia).
        pose proof (day_of_year_lt (year today) _ _ _ _ Hmt Hm Hdt
                      (proj1 Hd) Hlt'). lia. }
    unfold days_between, toordinal, ymd2ord. simpl.
    destruct (is_leap (year today)); lia.
Qed.

Lemma next_birthday_not_in_the_past_witness :
  0 <= days_between (mkdate 2024 1 2) (mkdate 2023 12 30) <= 366.
Proof.
  apply (next_birthday_not_in_the_past (mkdate 2023 12 30)
           (mkdate 1985 1 2) (mkdate 2024 1 2)); reflexivity.
Defined.

(** ** What [get_upcoming_birthdays] returns *)

Lemma days_in_month_any_year (y y' m d : Z) :
  1 <= m <= 12 -> d <= days_in_month y m -> ~ (m = 2 /\ d = 29) ->
  d <= days_in_month y' m.
Proof.
  intros Hm Hd Hleap. month_cases m; month_tables;
    destruct (is_leap y), (is_leap y'); lia.
Qed.

Lemma plain_birthday_rolls (today : date) (record : ContactRecord) :
  date_ok today = true -> year today < 9999 ->
  plain_birthday record = true -> rolls today record = true.
Proof.
  intros Htoday Hmax. apply date_ok_fields in Htoday as (Hy & _ & _).
  unfold plain_birthday, rolls, next_birthday, replace_year.
  destruct (birthday record) as [b|]; [|reflexivity].
  intros H. apply andb_true_iff in H as [Hok Hplain].
  apply date_ok_fields in Hok as (_ & Hm & Hd).
  assert (Hnot : ~ (month (birthday_value b) = 2 /\ day (birthday_value b) = 29)).
  { intros [E1 E2]. rewrite E1, E2 in Hplain. discriminate Hplain. }
  assert (Hany : forall y, 1 <= day (birthday_value b)
                           <= days_in_month y (month (birthday_value b))).
  { intros y. split; [lia|].
    apply (days_in_month_any_year (year (birthday_value b))); tauto || lia. }
  rewrite date_new_fields by (auto; lia).
  destruct (date_lt _ today); [|reflexivity].
  simpl month. simpl day. rewrite date_new_fields by (auto; lia).
  reflexivity.
Qed.

(** X12: on a date [today] of the calendar before the year 9999 and a
    book in which every birthday is a date of the calendar other than a
    29 February, [get_upcoming_birthdays] does not raise: it returns a
    list and leaves the book as it is. *)
Theorem upcoming_birthdays_returns (today : date) (book : AddressBook) :
  date_ok today = true -> year today < 9999 ->
  forallb plain_birthday (dict_values book) = true ->
  exists result,
    AddressBook_get_upcoming_birthdays today book = (inr result, book).
Proof.
  intros Htoday Hmax Hplain.
  exists (flat_map (selected today) (dict_values book)).
  apply get_upcoming_birthdays_selects.
  rewrite forallb_forall in *. intros record Hin.
  apply plain_birthday_rolls; auto.
Qed.

Lemma upcoming_birthdays_returns_witness :
  exists result,
    AddressBook_get_upcoming_birthdays (mkdate 2023 3 10) book_bob
    = (inr result, book_bob).
Proof.
  apply (upcoming_birthdays_returns (mkdate 2023 3 10) book_bob).
  - reflexivity.
  - simpl. lia.
  - reflexivity.
Defined.

Lemma upcoming_step_returned today record acc acc' :
  upcoming_step today record acc = inr acc' -> rolls today record = true.
Proof.
  unfold upcoming_step, rolls, next_birthday.
  destruct (birthday record) as [b|]; [|reflexivity].
  destruct (replace_year (birthday_value b) (year today)) as [e|this_year];
    [discriminate|].
  destruct (date_lt this_year today); [|reflexivity].
  destruct (replace_year this_year (year today + 1)); [discriminate|].
  reflexivity.
Qed.

Lemma upcoming_loop_returned today records :
  forall acc result,
    upcoming_loop today records acc = inr result ->
    forallb (rolls today) records = true.
Proof.
  induction records as [|record records IH]; simpl; intros acc result H;
    [reflexivity|].
  destruct (upcoming_step today record acc) as [e|acc'] eqn:Hstep;
    [discriminate|].
  rewrite (upcoming_step_returned _ _ _ _ Hstep). simpl. eapply IH, H.
Qed.

(** Whenever the call returns, it returns the entries of the selected
    Records in the order of the book. *)
Lemma get_upcoming_birthdays_returned today (book book' : AddressBook) result :
  AddressBook_get_upcoming_birthdays today book = (inr result, book') ->
  book' = book /\ result = flat_map (selected today) (dict_values book).
Proof.
  intros H.
  assert (Hrolls : forallb (rolls today) (dict_values book) = true).
  { unfold AddressBook_get_upcoming_birthdays, bind, get, lift in H.
    destruct (upcoming_loop today (dict_values book) []) as [e|l] eqn:Hloop;
      [discriminate|].
    eapply upcoming_loop_returned, Hloop. }
  rewrite (get_upcoming_birthdays_selects today book Hrolls) in H.
  injection H as <- <-. split; reflexivity.
Qed.

Lemma selected_window today record e :
  In e (selected today record) ->
  upcoming_name e = name_value (name record)
  /\ 0 <= days_until_birthday e <= 6
  /\ exists b next,
       birthday record = Some b
       /\ next_birthday today (birthday_value b) = inr next
       /\ upcoming_birthday e = date_str next
       /\ days_until_birthday e = days_between next today.
Proof.
  unfold selected. destruct (birthday record) as [b|]; [|intros []].
  destruct (next_birthday today (birthday_value b)) as [err|next] eqn:Hnext;
    [intros []|].
  destruct ((0 <=? _) && (_ <=? 6)) eqn:Hw; [|intros []].
  intros [<-|[]]. simpl. apply andb_true_iff in Hw as [? ?].
  split; [reflexivity|]. split; [lia|].
  exists b, next. repeat split. exact Hnext.
Qed.

(** X13: whenever [get_upcoming_birthdays] returns, the book is unchanged
    and the list holds, in the order of the book, one entry for each
    Record that has a birthday whose next occurrence is 0 to 6 days
    after today, and nothing else: every entry carries the name of its
    Record, the ISO text of that next occurrence and the number of days
    until it, and there are no more entries than Records. *)
Theorem upcoming_birthdays_result
    (today : date) (book book' : AddressBook) (result : list upcoming) :
  AddressBook_get_upcoming_birthdays today book = (inr result, book') ->
  book' = book
  /\ result = flat_map (selected today) (dict_values book)
  /\ (List.length result <= List.length book)%nat
  /\ (forall e, In e result ->
        0 <= days_until_birthday e <= 6
        /\ exists record b next,
             In record (dict_values book)
             /\ birthday record = Some b
             /\ next_birthday today (birthday_value b) = inr next
             /\ e = mkUpcoming (name_value (name record)) (date_str next)
                      (days_between next today)).
Proof.
  intros H. apply get_upcoming_birthdays_returned in H as [-> ->].
  repeat split.
  - unfold dict_values. induction book as [|[k record] book IH]; simpl; [lia|].
    rewrite length_app.
    assert (List.length (selected today record) <= 1)%nat; [|lia].
    unfold selected. destruct (birthday record); [|simpl; lia].
    destruct (next_birthday _ _); [simpl; lia|].
    destruct (_ && _); simpl; lia.
  - apply in_flat_map in H as (record & Hin & He).
    apply selected_window in He. tauto.
  - apply in_flat_map in H as (record & Hin & He).
    apply selected_window in He. tauto.
  - apply in_flat_map in H as (record & Hin & He).
    apply selected_window in He
      as (Hname & _ & b & next & Hb & Hnext & Htext & Hdays).
    exists record, b, next. repeat split; try assumption.
    destruct e as [n t d]. simpl in *. congruence.
Qed.

Lemma upcoming_birthdays_result_witness :
  [mkUpcoming "Bob" "2023-03-13" 3]
  = flat_map (selected (mkdate 2023 3 10)) (dict_values book_bob).
Proof.
  exact (proj1 (proj2 (upcoming_birthdays_result (mkdate 2023 3 10)
                         book_bob book_bob [mkUpcoming "Bob" "2023-03-13" 3]
                         eq_refl))).
Defined.

Lemma date_eta (d : date) : mkdate (year d) (month d) (day d) = d.
Proof. now destruct d. Qed.

Lemma date_lt_irrefl (d : date) : date_lt d d = false.
Proof. unfold date_lt. now rewrite !Z.ltb_irrefl, !Z.eqb_refl. Qed.

(** X14: a Record whose birthday has the month and the day of today is
    reported with 0 days to go, today's date as the text, whenever the
    call returns and today is a date of the calendar. *)
Theorem birthday_today_is_reported
    (today : date) (book book' : AddressBook) (result : list upcoming)
    (record : ContactRecord) (b : Birthday) :
  date_ok today = true ->
  AddressBook_get_upcoming_birthdays today book = (inr result, book') ->
  In record (dict_values book) ->
  birthday record = Some b ->
  month (birthday_value b) = month today ->
  day (birthday_value b) = day today ->
  In (mkUpcoming (name_value (name record)) (date_str today) 0) result.
Proof.
  intros Htoday H Hin Hb Hm Hd.
  apply get_upcoming_birthdays_returned in H as [_ ->].
  apply in_flat_map. exists record. split; [exact Hin|].
  apply date_ok_fields in Htoday as (Hy & Hmt & Hdt).
  unfold selected, next_birthday, replace_year. rewrite Hb, Hm, Hd.
  rewrite date_new_fields by assumption. rewrite date_eta, date_lt_irrefl.
  unfold days_between. rewrite Z.sub_diag. simpl. now left.
Qed.

Lemma birthday_today_is_reported_witness :
  In (mkUpcoming "Bob" "2023-03-13" 0) [mkUpcoming "Bob" "2023-03-13" 0].
Proof.
  apply (birthday_today_is_reported (mkdate 2023 3 13) book_bob book_bob
           [mkUpcoming "Bob" "2023-03-13" 0]
           (mkRecord (mkName "Bob") [mkPhone "5555555555"]
              (Some (mkBirthday (mkdate 1990 3 13))))
           (mkBirthday (mkdate 1990 3 13))).
  - reflexivity.
  - reflexivity.
  - simpl. now left.
  - reflexivity.
  - reflexivity.
  - reflexivity.
Defined.

(** ** The handlers that only read *)

(** X15: the handlers [phone], [all_contacts], [show_birthday] and
    [birthdays] leave the book exactly as it was, whatever their
    arguments are and whether they answer with a result or with the
    text of an error. *)
Theorem query_handlers_read_only
    (today : date) (args : list string) (book : AddressBook) :
  snd (phone args book) = book
  /\ snd (all_contacts args book) = book
  /\ snd (show_birthday args book) = book
  /\ snd (birthdays today args book) = book.
Proof.
  repeat split.
  - unfold phone, input_error, phone_func, index0, AddressBook_find, bind,
      get, ret, raise.
    destruct args as [|n args]; [reflexivity|].
    now destruct (dict_get n book).
  - unfold all_contacts, input_error, all_contacts_func, bind, get, ret.
    now destruct book.
  - unfold show_birthday, input_error, show_birthday_func, index0, bind,
      get, ret, raise.
    destruct args as [|n args]; [reflexivity|].
    destruct (dict_get n book) as [record|]; [|reflexivity].
    now destruct (birthday record).
  - unfold birthdays, input_error, birthdays_func,
      AddressBook_get_upcoming_birthdays, bind, get, lift, ret.
    destruct (upcoming_loop today (dict_values book) []) as [e|[|entry l]];
      reflexivity.
Qed.

(** X16: [phone] and [show_birthday] called without an argument answer
    with the text of the [IndexError], "list index out of range", and
    called with a name that is not in the book answer "Contact not
    found."; [all_contacts] on the empty book answers "Address book is
    empty.". *)
Theorem query_handlers_edge_cases (book : AddressBook) (n : string)
    (rest : list string) :
  fst (phone [] book) = "list index out of range"
  /\ fst (show_birthday [] book) = "list index out of range"
  /\ fst (all_contacts rest []) = "Address book is empty."
  /\ (dict_mem n book = false ->
      fst (phone (n :: rest) book) = "Contact not found."
      /\ fst (show_birthday (n :: rest) book) = "Contact not found.").
Proof.
  split; [reflexivity|]. split; [reflexivity|]. split; [reflexivity|].
  intros H. apply dict_mem_false in H. split.
  - unfold phone, input_error, phone_func, index0, AddressBook_find, bind,
      get, ret. now rewrite H.
  - unfold show_birthday, input_error, show_birthday_func, index0, bind,
      get, ret. now rewrite H.
Qed.

Lemma query_handlers_edge_cases_witness :
  fst (phone ["Jane"] book_bob) = "Contact not found."
  /\ fst (show_birthday ["Jane"; "extra"] book_bob) = "Contact not found.".
Proof.
  split.
  - exact (proj1 (proj2 (proj2 (proj2
             (query_handlers_edge_cases book_bob "Jane" []))) eq_refl)).
  - exact (proj2 (proj2 (proj2 (proj2
             (query_handlers_edge_cases book_bob "Jane" ["extra"]))) eq_refl)).
Defined.

(** ** The [change] handler *)

Lemma on_record_present {A} (n : string) (method : M ContactRecord A)
    (book : AddressBook) (record : ContactRecord) :
  dict_get n book = Some record ->
  on_record n method book
  = (fst (method record), dict_set n (snd (method record)) book).
Proof.
  intros H. unfold on_record. rewrite H. now destruct (method record).
Qed.

Lemma Record_edit_phone_absent old_phone new_phone record :
  ~ In old_phone (phone_values record) ->
  Record_edit_phone old_phone new_phone record = (inr tt, record).
Proof.
  intros H. unfold Record_edit_phone, bind, get, ret.
  now rewrite first_phone_absent.
Qed.

(** [change] with three arguments on a name that has a Record. *)
Lemma change_present (book : AddressBook) n old_phone new_phone record :
  dict_get n book = Some record ->
  change [n; old_phone; new_phone] book
  = match Record_edit_phone old_phone new_phone record with
    | (inr _, record') =>
        ("Phone " ++ old_phone ++ " changed to " ++ new_phone
         ++ " for " ++ n ++ ".",
         dict_set n record' book)
    | (inl e, record') => (str_exn e, dict_set n record' book)
    end.
Proof.
  intros H.
  unfold change, input_error, change_func, unpack3, AddressBook_find, bind,
    ret, get.
  cbn [List.length Nat.ltb Nat.leb]. rewrite H.
  rewrite (on_record_present _ _ _ _ H).
  now destruct (Record_edit_phone old_phone new_phone record) as [[e|[]] r].
Qed.

(** X17: [change] has no effect on the book in two cases, and its answer
    tells them apart only in the first: for a name that is not in the
    book it answers "Contact not found."; for a name whose Record has no
    phone of the value [old_phone] it answers that the phone was
    changed, whatever [new_phone] is. *)
Theorem change_without_effect
    (book : AddressBook) (n old_phone new_phone : string) :
  (dict_get n book = None ->
   change [n; old_phone; new_phone] book = ("Contact not found.", book))
  /\ (forall record,
        dict_get n book = Some record ->
        ~ In old_phone (phone_values record) ->
        change [n; old_phone; new_phone] book
        = ("Phone " ++ old_phone ++ " changed to " ++ new_phone
           ++ " for " ++ n ++ ".",
           book)).
Proof.
  split.
  - intros H.
    unfold change, input_error, change_func, unpack3, AddressBook_find, bind,
      ret, get.
    cbn [List.length Nat.ltb Nat.leb]. now rewrite H.
  - intros record Hget Hout. rewrite (change_present _ _ _ _ _ Hget).
    rewrite Record_edit_phone_absent by assumption.
    now rewrite (dict_set_get_id _ _ _ Hget).
Qed.

Lemma change_without_effect_witness :
  change ["Jane"; "1234567890"; "5555555555"] book_bob
  = ("Contact not found.", book_bob)
  /\ change ["Bob"; "1234567890"; "not a phone"] book_bob
     = ("Phone 1234567890 changed to not a phone for Bob.", book_bob).
Proof.
  split.
  - exact (proj1 (change_without_effect book_bob "Jane" "1234567890"
                    "5555555555") eq_refl).
  - apply (proj2 (change_without_effect book_bob "Bob" "1234567890"
                    "not a phone")
             (mkRecord (mkName "Bob") [mkPhone "5555555555"]
                (Some (mkBirthday (mkdate 1990 3 13))))).
    + reflexivity.
    + simpl. intros [H|[]]. discriminate H.
Defined.

(** X18: [change] on a Record that has a phone of the value [old_phone],
    with a [new_phone] that does not pass the validation, answers with
    the text of the validation error, and the old phone is gone from the
    book: the Record stored under the name has lost it and gained
    nothing. *)
Theorem change_invalid_new_loses_phone
    (book : AddressBook) (n old_phone new_phone : string)
    (record : ContactRecord) l1 p l2 :
  dict_get n book = Some record ->
  phones record = (l1 ++ p :: l2)%list -> phone_value p = old_phone ->
  ~ In old_phone (map phone_value l1) ->
  re_match_phone new_phone = false ->
  change [n; old_phone; new_phone] book
  = ("Phone number must be 10 digits long",
     dict_set n (mkRecord (name record) (l1 ++ l2) (birthday record)) book).
Proof.
  intros Hget Hps Hp Hl1 Hnew. rewrite (change_present _ _ _ _ _ Hget).
  rewrite (Record_edit_phone_present _ _ _ l1 p l2) by assumption.
  now rewrite Record_add_phone_rejected.
Qed.

Lemma change_invalid_new_loses_phone_witness :
  change ["Bob"; "5555555555"; "555"] book_bob
  = ("Phone number must be 10 digits long",
     [("Bob", mkRecord (mkName "Bob") []
                (Some (mkBirthday (mkdate 1990 3 13))))]).
Proof.
  apply (change_invalid_new_loses_phone book_bob "Bob" "5555555555" "555"
           (mkRecord (mkName "Bob") [mkPhone "5555555555"]
              (Some (mkBirthday (mkdate 1990 3 13))))
           [] (mkPhone "5555555555") []).
  - reflexivity.
  - reflexivity.
  - reflexivity.
  - simpl. tauto.
  - reflexivity.
Defined.

(** X19: [change] on a Record that has a phone of the value [old_phone],
    with a [new_phone] that passes the validation, reports the change
    and stores the Record with the first such phone taken out and the
    new phone at the end of its phones. *)
Theorem change_replaces_phone
    (book : AddressBook) (n old_phone new_phone : string)
    (record : ContactRecord) l1 p l2 :
  dict_get n book = Some record ->
  phones record = (l1 ++ p :: l2)%list -> phone_value p = old_phone ->
  ~ In old_phone (map phone_value l1) ->
  re_match_phone new_phone = true ->
  change [n; old_phone; new_phone] book
  = ("Phone " ++ old_phone ++ " changed to " ++ new_phone
     ++ " for " ++ n ++ ".",
     dict_set n
       (mkRecord (name record) (l1 ++ l2 ++ [mkPhone new_phone])
          (birthday record))
       book).
Proof.
  intros Hget Hps Hp Hl1 Hnew. rewrite (change_present _ _ _ _ _ Hget).
  rewrite (Record_edit_phone_present _ _ _ l1 p l2) by assumption.
  rewrite Record_add_phone_accepted by assumption.
  unfold with_phone. simpl. now rewrite <- app_assoc.
Qed.

Lemma change_replaces_phone_witness :
  change ["Bob"; "5555555555"; "1112223333"] book_bob
  = ("Phone 5555555555 changed to 1112223333 for Bob.",
     [("Bob", mkRecord (mkName "Bob") [mkPhone "1112223333"]
                (Some (mkBirthday (mkdate 1990 3 13))))]).
Proof.
  apply (change_replaces_phone book_bob "Bob" "5555555555" "1112223333"
           (mkRecord (mkName "Bob") [mkPhone "5555555555"]
              (Some (mkBirthday (mkdate 1990 3 13))))
           [] (mkPhone "5555555555") []).
  - reflexivity.
  - reflexivity.
  - reflexivity.
  - simpl. tauto.
  - reflexivity.
Defined.

(** X20: the number of arguments of [change] and of [add_birthday]: with
    fewer than three arguments [change] answers with its usage message,
    with more than three with the text of the unpacking error;
    [add_birthday] has no usage message and answers with the text of the
    unpacking error on every number of arguments other than two.  The
    book is unchanged in each case. *)
Theorem change_add_birthday_arity (args : list string) (book : AddressBook) :
  ((List.length args < 3)%nat ->
   change args book = ("Usage: change [name] [old phone] [new phone]", book))
  /\ ((3 < List.length args)%nat ->
      change args book = ("too many values to unpack (expected 3)", book))
  /\ ((List.length args < 2)%nat ->
      add_birthday args book
      = ("not enough values to unpack (expected 2, got "
         ++ str_int (Z.of_nat (List.length args)) ++ ")", book))
  /\ ((2 < List.length args)%nat ->
      add_birthday args book
      = ("too many values to unpack (expected 2)", book)).
Proof.
  repeat split; intros H.
  - unfold change, input_error, change_func.
    destruct (Nat.ltb_spec (List.length args) 3); [reflexivity|lia].
  - destruct args as [|a [|b [|c [|d args]]]]; simpl in H; try lia.
    reflexivity.
  - destruct args as [|a [|b args]]; simpl in H; try lia; reflexivity.
  - destruct args as [|a [|b [|c args]]]; simpl in H; try lia. reflexivity.
Qed.

Lemma change_add_birthday_arity_witness :
  change ["Bob"; "5555555555"] book_bob
  = ("Usage: change [name] [old phone] [new phone]", book_bob)
  /\ add_birthday ["Bob"] book_bob
     = ("not enough values to unpack (expected 2, got 1)", book_bob).
Proof.
  split.
  - apply (proj1 (change_add_birthday_arity ["Bob"; "5555555555"] book_bob)).
    simpl. lia.
  - apply (proj1 (proj2 (proj2
             (change_add_birthday_arity ["Bob"] book_bob)))).
    simpl. lia.
Defined.

(** ** The [add_birthday] and [show_birthday] handlers *)

Lemma int_of_str_error (s : string) (e : exn) :
  int_of_str s = inl e -> exists msg, e = ValueError msg.
Proof.
  unfold int_of_str. destruct (lstrip s) as [|c t]; [intros [= <-]; eauto|].
  destruct (digits_value 0 (String c t)); [discriminate|].
  intros [= <-]. eauto.
Qed.

Lemma strptime_dmY_error (s : string) (e : exn) :
  strptime_dmY s = inl e -> exists msg, e = ValueError msg.
Proof.
  unfold strptime_dmY.
  destruct (format_regex_match s) as [[[[d m] y] rest]|];
    [|intros [= <-]; eauto].
  destruct (negb _); [intros [= <-]; eauto|].
  destruct (int_of_str y) as [ey|yv] eqn:Hy;
    [intros [= <-]; eapply int_of_str_error, Hy|].
  destruct (int_of_str m) as [em|mv] eqn:Hm;
    [intros [= <-]; eapply int_of_str_error, Hm|].
  destruct (int_of_str d) as [ed|dv] eqn:Hd;
    [intros [= <-]; eapply int_of_str_error, Hd|].
  apply date_new_error.
Qed.

(** The constructor of Birthday raises nothing but its own error. *)
Lemma Birthday_init_error (s : string) :
  (forall b, Birthday_init s <> inr b) ->
  Birthday_init s = inl (ValueError "Invalid date format. Use DD.MM.YYYY").
Proof.
  unfold Birthday_init. intros H.
  destruct (strptime_dmY s) as [e|d] eqn:Hs.
  - destruct (strptime_dmY_error _ _ Hs) as [msg ->]. reflexivity.
  - exfalso. now apply (H (mkBirthday d)).
Qed.

(** A Birthday that was constructed holds a date of the calendar. *)
Lemma Birthday_init_date_ok (s : string) (b : Birthday) :
  Birthday_init s = inr b -> date_ok (birthday_value b) = true.
Proof.
  unfold Birthday_init, strptime_dmY.
  destruct (format_regex_match s) as [[[[d m] y] rest]|]; [|discriminate].
  destruct (negb _); [discriminate|].
  destruct (int_of_str y) as [ey|yv]; [destruct ey; discriminate|].
  destruct (int_of_str m) as [em|mv]; [destruct em; discriminate|].
  destruct (int_of_str d) as [ed|dv]; [destruct ed; discriminate|].
  destruct (date_new yv mv dv) as [e|x] eqn:Hnew; [destruct e; discriminate|].
  intros [= <-]. simpl.
  apply date_new_inv in Hnew as (-> & Hy & Hm & Hd).
  unfold date_ok, real_calendar_date. simpl.
  rewrite month_length_days_in_month by assumption.
  repeat (apply andb_true_iff; split); lia.
Qed.

(** The Birthday of a text in the form DD.MM.YYYY that denotes a date: it
    renders as the day, the month and the dots of the text, followed by
    the year without leading zeros. *)
Lemma Birthday_init_DDMMYYYY (s : string) :
  is_DDMMYYYY s = true -> denotes_real_date s = true ->
  exists b,
    Birthday_init s = inr b
    /\ Birthday_str b = substring 0 6 s ++ str_int (text_year s)
    /\ (1000 <= text_year s -> Birthday_str b = s).
Proof.
  intros Hs.
  destruct (is_DDMMYYYY_inv s Hs)
    as (d1 & d2 & m1 & m2 & y1 & y2 & y3 & y4 & -> &
        Hd1 & Hd2 & Hm1 & Hm2 & Hy1 & Hy2 & Hy3 & Hy4).
  clear Hs.
  pose proof (format_regex_match_DDMMYYYY d1 d2 m1 m2 y1 y2 y3 y4
                Hd1 Hd2 Hm1 Hm2 Hy1 Hy2 Hy3 Hy4) as Hmatch.
  cbv zeta in Hmatch.
  set (dd := String d1 (String d2 "")) in *.
  set (mm := String m1 (String m2 "")) in *.
  set (yyyy := String y1 (String y2 (String y3 (String y4 "")))) in *.
  unfold denotes_real_date, text_year, text_month, text_day.
  change (substring 0 2 (dd ++ "." ++ mm ++ "." ++ yyyy)) with dd.
  change (substring 3 2 (dd ++ "." ++ mm ++ "." ++ yyyy)) with mm.
  change (substring 6 4 (dd ++ "." ++ mm ++ "." ++ yyyy)) with yyyy.
  intros Hreal.
  unfold Birthday_init, strptime_dmY. rewrite Hmatch.
  rewrite (real_calendar_date_bounds _ _ _ Hreal).
  simpl negb. cbv iota.
  unfold yyyy, mm, dd.
  rewrite !int_of_str_digits
    by (simpl; now rewrite ?Hd1, ?Hd2, ?Hm1, ?Hm2, ?Hy1, ?Hy2, ?Hy3, ?Hy4).
  fold dd mm yyyy. rewrite (date_new_real _ _ _ Hreal).
  eexists. split; [reflexivity|].
  unfold Birthday_str, strftime_dmY. simpl birthday_value.
  simpl day. simpl month. simpl year. unfold dd, mm in *.
  rewrite !zero_padded_two_digits by assumption.
  split; [reflexivity|]. intros Hyear. unfold yyyy in *.
  rewrite str_int_four_digits by assumption. reflexivity.
Qed.

(** [add_birthday] with two arguments on a name that has a Record. *)
Lemma add_birthday_present (book : AddressBook) n date_str record :
  dict_get n book = Some record ->
  add_birthday [n; date_str] book
  = match Birthday_init date_str with
    | inr b =>
        ("Birthday added for " ++ n ++ ".",
         dict_set n (mkRecord (name record) (phones record) (Some b)) book)
    | inl e => (str_exn e, book)
    end.
Proof.
  intros H.
  unfold add_birthday, input_error, add_birthday_func, unpack2,
    except_ValueError, bind, ret, get, lift, dict_mem.
  rewrite H. cbv beta iota delta [negb].
  destruct (Birthday_init date_str) as [[msg|msg|key]|b]; try reflexivity.
  now rewrite (on_record_present _ _ _ _ H).
Qed.

(** X21: [add_birthday] has no effect on the book in two cases: for a
    name that is not in the book it answers "Contact not found.", before
    it looks at the date; for a name in the book and a text from which
    no Birthday can be constructed it answers with the message of the
    field, "Invalid date format. Use DD.MM.YYYY". *)
Theorem add_birthday_without_effect
    (book : AddressBook) (n date_str : string) :
  (dict_mem n book = false ->
   add_birthday [n; date_str] book = ("Contact not found.", book))
  /\ (dict_mem n book = true ->
      (forall b, Birthday_init date_str <> inr b) ->
      add_birthday [n; date_str] book
      = ("Invalid date format. Use DD.MM.YYYY", book)).
Proof.
  split.
  - intros H.
    unfold add_birthday, input_error, add_birthday_func, unpack2, bind, ret,
      get.
    now rewrite H.
  - intros H Hbad. apply dict_mem_get in H as [record H].
    rewrite (add_birthday_present _ _ _ _ H).
    now rewrite (Birthday_init_error _ Hbad).
Qed.

Lemma add_birthday_without_effect_witness :
  add_birthday ["Jane"; "31.02.2020"] book_bob
  = ("Contact not found.", book_bob)
  /\ add_birthday ["Bob"; "31.02.2020"] book_bob
     = ("Invalid date format. Use DD.MM.YYYY", book_bob).
Proof.
  split.
  - exact (proj1 (add_birthday_without_effect book_bob "Jane" "31.02.2020")
             eq_refl).
  - apply (proj2 (add_birthday_without_effect book_bob "Bob" "31.02.2020")
             eq_refl).
    intros b H. discriminate H.
Defined.

(** X22: for a name that has a Record and a text in the form DD.MM.YYYY
    that denotes a date, [add_birthday] reports the addition and sets
    the birthday of that Record, replacing the one it had and leaving
    its name and phones; [show_birthday] on the book it leaves then
    answers with the day and the month of the text and the year without
    leading zeros, which is that same text when the year is 1000 or
    later. *)
Theorem add_birthday_then_show
    (book : AddressBook) (n date_str : string) (record : ContactRecord) :
  dict_get n book = Some record ->
  is_DDMMYYYY date_str = true -> denotes_real_date date_str = true ->
  exists b,
    let book' :=
      dict_set n (mkRecord (name record) (phones record) (Some b)) book in
    add_birthday [n; date_str] book = ("Birthday added for " ++ n ++ ".", book')
    /\ show_birthday [n] book'
       = (n ++ "'s birthday is " ++ substring 0 6 date_str
          ++ str_int (text_year date_str), book')
    /\ (1000 <= text_year date_str ->
        show_birthday [n] book' = (n ++ "'s birthday is " ++ date_str, book')).
Proof.
  intros Hget Hform Hreal.
  destruct (Birthday_init_DDMMYYYY _ Hform Hreal) as (b & Hb & Hstr & Hsame).
  exists b. cbv zeta.
  assert (Hshow :
    show_birthday [n]
      (dict_set n (mkRecord (name record) (phones record) (Some b)) book)
    = (n ++ "'s birthday is " ++ Birthday_str b,
       dict_set n (mkRecord (name record) (phones record) (Some b)) book)).
  { unfold show_birthday, input_error, show_birthday_func, index0, bind,
      ret, get.
    now rewrite dict_get_set_same. }
  split; [|split].
  - rewrite (add_birthday_present _ _ _ _ Hget). now rewrite Hb.
  - now rewrite Hshow, Hstr.
  - intros Hyear. now rewrite Hshow, (Hsame Hyear).
Qed.

Lemma add_birthday_then_show_witness :
  (exists b,
     add_birthday ["Bob"; "05.07.0001"] book_bob
     = ("Birthday added for Bob.",
        dict_set "Bob"
          (mkRecord (mkName "Bob") [mkPhone "5555555555"] (Some b)) book_bob)
     /\ show_birthday ["Bob"]
          (dict_set "Bob"
             (mkRecord (mkName "Bob") [mkPhone "5555555555"] (Some b))
             book_bob)
        = ("Bob's birthday is 05.07.1",
           dict_set "Bob"
             (mkRecord (mkName "Bob") [mkPhone "5555555555"] (Some b))
             book_bob))
  /\ (exists b,
        add_birthday ["Bob"; "29.02.2000"] book_bob
        = ("Birthday added for Bob.",
           dict_set "Bob"
             (mkRecord (mkName "Bob") [mkPhone "5555555555"] (Some b))
             book_bob)
        /\ show_birthday ["Bob"]
             (dict_set "Bob"
                (mkRecord (mkName "Bob") [mkPhone "5555555555"] (Some b))
                book_bob)
           = ("Bob's birthday is 29.02.2000",
              dict_set "Bob"
                (mkRecord (mkName "Bob") [mkPhone "5555555555"] (Some b))
                book_bob)).
Proof.
  split.
  - destruct (add_birthday_then_show book_bob "Bob" "05.07.0001"
                (mkRecord (mkName "Bob") [mkPhone "5555555555"]
                   (Some (mkBirthday (mkdate 1990 3 13))))
                eq_refl eq_refl eq_refl) as (b & H1 & H2 & _).
    exists b. split; [exact H1 | exact H2].
  - destruct (add_birthday_then_show book_bob "Bob" "29.02.2000"
                (mkRecord (mkName "Bob") [mkPhone "5555555555"]
                   (Some (mkBirthday (mkdate 1990 3 13))))
                eq_refl eq_refl eq_refl) as (b & H1 & _ & H3).
    exists b. split; [exact H1|]. apply H3. vm_compute. discriminate.
Defined.

(** ** What the handlers keep *)

Section Unchanged.
Context (P : AddressBook -> Prop).

Lemma any_find (n : string) : preserves P (AddressBook_find n).
Proof. intros book H. exact H. Qed.

Lemma any_upcoming (today : date) :
  preserves P (AddressBook_get_upcoming_birthdays today).
Proof. intros book H. exact H. Qed.

Lemma any_unpack2 (args : list string) : preserves P (unpack2 args).
Proof. intros book H. unfold unpack2. now destruct args as [|a [|b [|c l]]]. Qed.

Lemma any_unpack3 (args : list string) : preserves P (unpack3 args).
Proof.
  intros book H. unfold unpack3. now destruct args as [|a [|b [|c [|d l]]]].
Qed.

Lemma any_index0 (args : list string) : preserves P (index0 args).
Proof. intros book H. unfold index0. now destruct args. Qed.

(** The functions of the handlers that only read keep every property of
    the book. *)
Lemma any_query_func (c : command) (today : date) (args : list string) :
  c = cmd_phone \/ c = cmd_all \/ c = cmd_show_birthday \/ c = cmd_birthdays ->
  preserves P (func_of c today args).
Proof.
  intros [-> | [-> | [-> | ->]]]; simpl.
  - unfold phone_func. apply preserves_bind; [apply any_index0|]. intros n.
    apply preserves_bind; [apply any_find|]. intros [record|];
      apply preserves_ret.
  - unfold all_contacts_func. apply preserves_bind; [apply preserves_get|].
    intros [|entry data]; apply preserves_ret.
  - unfold show_birthday_func. apply preserves_bind; [apply any_index0|].
    intros n. apply preserves_bind; [apply preserves_get|]. intros data.
    destruct (dict_get n data) as [record|]; [|apply preserves_ret].
    destruct (birthday record); apply preserves_ret.
  - unfold birthdays_func. apply preserves_bind; [apply any_upcoming|].
    intros [|entry l]; apply preserves_ret.
Qed.
End Unchanged.

Lemma book_ok_set (book : AddressBook) (k : string) (record : ContactRecord) :
  record_ok record = true -> book_ok book = true ->
  book_ok (dict_set k record book) = true.
Proof.
  unfold book_ok. intros Hr.
  induction book as [|[k' r] book IH]; simpl; intros H.
  - now rewrite Hr.
  - apply andb_true_iff in H as [Hk Hrest].
    destruct (String.eqb k' k); simpl.
    + now rewrite Hr.
    + rewrite Hk. now apply IH.
Qed.

Lemma book_ok_get (book : AddressBook) (k : string) (record : ContactRecord) :
  book_ok book = true -> dict_get k book = Some record ->
  record_ok record = true.
Proof.
  unfold book_ok.
  induction book as [|[k' r] book IH]; simpl; intros H; [discriminate|].
  apply andb_true_iff in H as [Hk Hrest].
  destruct (String.eqb k' k); [intros [= <-]; exact Hk | now apply IH].
Qed.

Lemma Record_add_phone_ok phone : preserves ok (Record_add_phone phone).
Proof.
  intros record H. unfold Record_add_phone, bind, lift, get, put.
  destruct (re_match_phone phone) eqn:Hp.
  - rewrite (Phone_init_accepted _ Hp). unfold ok, record_ok, phones_valid in *.
    simpl. apply andb_true_iff in H as [H Hb]. apply andb_true_iff in H as [Hn Hv].
    rewrite Hn, Hb, forallb_app, Hv. simpl. now rewrite Hp.
  - rewrite (Phone_init_rejected _ Hp). exact H.
Qed.

Lemma Record_remove_phone_ok phone : preserves ok (Record_remove_phone phone).
Proof.
  intros record H. unfold Record_remove_phone, bind, get, put, ret. simpl.
  destruct (first_phone phone (phones record)); [|exact H].
  unfold ok, record_ok, phones_valid in *. simpl.
  apply andb_true_iff in H as [H Hb]. apply andb_true_iff in H as [Hn Hv].
  now rewrite Hn, Hb, forallb_remove_first.
Qed.

Lemma Record_edit_phone_ok old_phone new_phone :
  preserves ok (Record_edit_phone old_phone new_phone).
Proof.
  unfold Record_edit_phone. apply preserves_bind; [apply preserves_get|].
  intros self. destruct (first_phone old_phone (phones self)).
  - apply preserves_bind; [apply Record_remove_phone_ok|].
    intros _. apply Record_add_phone_ok.
  - apply preserves_ret.
Qed.

Lemma Record_add_birthday_ok (b : Birthday) :
  date_ok (birthday_value b) = true -> preserves ok (Record_add_birthday b).
Proof.
  intros Hb record H. unfold Record_add_birthday, bind, get, put. simpl.
  unfold ok, record_ok, phones_valid in *. simpl.
  apply andb_true_iff in H as [H _]. apply andb_true_iff in H as [Hn Hv].
  now rewrite Hn, Hv, Hb.
Qed.

Lemma on_record_ok {A} (n : string) (method : M ContactRecord A) :
  preserves ok method -> preserves all_ok (on_record n method).
Proof.
  intros Hm book H. unfold on_record.
  destruct (dict_get n book) as [record|] eqn:Hget; [|exact H].
  specialize (Hm record (book_ok_get _ _ _ H Hget)).
  destruct (method record) as [result record']. simpl in *.
  now apply book_ok_set.
Qed.

Lemma add_func_ok (args : list string) : preserves all_ok (add_func args).
Proof.
  unfold add_func. destruct (List.length args <? 2)%nat; [apply preserves_ret|].
  apply preserves_bind; [apply any_unpack2|]. intros [n phone].
  apply preserves_bind; [apply preserves_get|]. intros data.
  destruct (dict_mem n data).
  - apply preserves_bind; [|intros; apply preserves_ret].
    apply on_record_ok, Record_add_phone_ok.
  - intros book H.
    unfold bind, lift, AddressBook_add_record, get, put, ret, Record_init,
      Name_init.
    destruct (String.eqb n "") eqn:Hn; [exact H|].
    assert (Hnew : ok (mkRecord (mkName n) [] None))
      by (unfold ok, record_ok; simpl; now rewrite Hn).
    pose proof (Record_add_phone_ok phone _ Hnew) as Hadded.
    destruct (Record_add_phone phone (mkRecord (mkName n) [] None))
      as [[e|[]] record']; simpl in *; [exact H|].
    now apply book_ok_set.
Qed.

Lemma change_func_ok (args : list string) : preserves all_ok (change_func args).
Proof.
  unfold change_func. destruct (List.length args <? 3)%nat;
    [apply preserves_ret|].
  apply preserves_bind; [apply any_unpack3|]. intros [[n old_phone] new_phone].
  apply preserves_bind; [apply any_find|]. intros [record|];
    [|apply preserves_ret].
  apply preserves_bind; [|intros; apply preserves_ret].
  apply on_record_ok, Record_edit_phone_ok.
Qed.

Lemma add_birthday_func_ok (args : list string) :
  preserves all_ok (add_birthday_func args).
Proof.
  unfold add_birthday_func.
  apply preserves_bind; [apply any_unpack2|]. intros [n date_str].
  apply preserves_bind; [apply preserves_get|]. intros data.
  destruct (negb (dict_mem n data)); [apply preserves_ret|].
  apply preserves_except; [|intros; apply preserves_ret].
  intros book H. unfold bind, lift.
  destruct (Birthday_init date_str) as [e|b] eqn:Hb; [exact H|].
  apply Birthday_init_date_ok in Hb.
  pose proof (on_record_ok n _ (Record_add_birthday_ok b Hb) book H) as Hset.
  destruct (on_record n (Record_add_birthday b) book) as [[e|[]] book'];
    exact Hset.
Qed.

Lemma handler_ok c today args (book : AddressBook) :
  all_ok book -> all_ok (snd (handler c today args book)).
Proof.
  intros H.
  replace (handler c today args) with (input_error (func_of c today args))
    by (destruct c; reflexivity).
  apply (preserves_input_error all_ok); [|exact H].
  destruct c; try (apply any_query_func; tauto); simpl.
  - apply add_func_ok.
  - apply change_func_ok.
  - apply add_birthday_func_ok.
Qed.

(** X23: the commands keep the data model: in a book in which every
    Record has a name that is not empty, phones that all pass the
    validation of Phone and a birthday, if any, that is a date of the
    calendar, this is still so after any sequence of commands, whatever
    their arguments and whether they succeed or answer with an error.
    The empty book is such a book. *)
Theorem commands_keep_data_model
    (lines : list command_line) (book : AddressBook) :
  book_ok book = true -> book_ok (run_commands lines book) = true.
Proof.
  unfold run_commands. revert book.
  induction lines as [|[[c today] args] lines IH]; intros book H; simpl;
    [exact H|].
  apply IH. now apply handler_ok.
Qed.

Lemma commands_keep_data_model_witness :
  book_ok [] = true
  /\ book_ok
       (run_commands
          [(cmd_add, mkdate 2023 3 10, ["John"; "1234567890"]);
           (cmd_add, mkdate 2023 3 10, [""; "1234567890"]);
           (cmd_add, mkdate 2023 3 10, ["Jane"; "12345"]);
           (cmd_change, mkdate 2023 3 10, ["John"; "1234567890"; "555"]);
           (cmd_add_birthday, mkdate 2023 3 10, ["John"; "31.02.2020"]);
           (cmd_add_birthday, mkdate 2023 3 10, ["John"; "29.02.2000"]);
           (cmd_birthdays, mkdate 2023 3 10, [])]
          []) = true.
Proof.
  split; [reflexivity|].
  apply (commands_keep_data_model _ []). reflexivity.
Defined.

Lemma on_record_has_keys {A} ks (n : string) (method : M ContactRecord A) :
  preserves (has_keys ks) (on_record n method).
Proof.
  intros book H. unfold on_record, has_keys in *.
  destruct (dict_get n book) as [record|] eqn:Hget; [|exact H].
  destruct (method record) as [result record']. simpl.
  rewrite dict_keys_set. unfold dict_mem. now rewrite Hget.
Qed.

Lemma change_func_has_keys ks (args : list string) :
  preserves (has_keys ks) (change_func args).
Proof.
  unfold change_func. destruct (List.length args <? 3)%nat;
    [apply preserves_ret|].
  apply preserves_bind; [apply any_unpack3|]. intros [[n old_phone] new_phone].
  apply preserves_bind; [apply any_find|]. intros [record|];
    [|apply preserves_ret].
  apply preserves_bind; [|intros; apply preserves_ret].
  apply on_record_has_keys.
Qed.

Lemma add_birthday_func_has_keys ks (args : list string) :
  preserves (has_keys ks) (add_birthday_func args).
Proof.
  unfold add_birthday_func.
  apply preserves_bind; [apply any_unpack2|]. intros [n date_str].
  apply preserves_bind; [apply preserves_get|]. intros data.
  destruct (negb (dict_mem n data)); [apply preserves_ret|].
  apply preserves_except; [|intros; apply preserves_ret].
  apply preserves_bind; [apply preserves_lift|]. intros b.
  apply preserves_bind; [|intros; apply preserves_ret].
  apply on_record_has_keys.
Qed.

(** The keys after [add] with a name and a phone. *)
Lemma add_keys (book : AddressBook) (n phone : string) :
  dict_keys (snd (add [n; phone] book)) = dict_keys book
  \/ (dict_mem n book = false
      /\ dict_keys (snd (add [n; phone] book)) = (dict_keys book ++ [n])%list).
Proof.
  unfold add, input_error, add_func, unpack2, bind, ret, get, lift.
  cbn [List.length Nat.ltb Nat.leb].
  destruct (dict_mem n book) eqn:Hmem.
  - left.
    pose proof (on_record_has_keys (dict_keys book) n
                  (Record_add_phone phone) book eq_refl) as H.
    destruct (on_record n (Record_add_phone phone) book) as [[e|[]] book'];
      exact H.
  - unfold Record_init, Name_init.
    destruct (String.eqb n ""); [now left|].
    destruct (Record_add_phone phone (mkRecord (mkName n) [] None))
      as [[e|[]] record'] eqn:Hadd; [now left|].
    right. split; [reflexivity|].
    assert (Hname : name record' = mkName n).
    { pose proof (Record_add_phone_name (mkName n) phone
                    (mkRecord (mkName n) [] None) eq_refl) as Hnm.
      rewrite Hadd in Hnm. exact Hnm. }
    unfold AddressBook_add_record, bind, get, put. simpl.
    rewrite Hname. simpl. rewrite dict_keys_set. now rewrite Hmem.
Qed.

Lemma handler_keys
    (c : command) (today : date) (args : list string) (book : AddressBook) :
  dict_keys (snd (handler c today args book)) = dict_keys book
  \/ (exists n phone,
        c = cmd_add /\ args = [n; phone] /\ dict_mem n book = false
        /\ dict_keys (snd (handler c today args book))
           = (dict_keys book ++ [n])%list).
Proof.
  destruct c.
  - destruct args as [|n [|phone [|extra args]]]; try (left; reflexivity).
    destruct (add_keys book n phone) as [H|[Hmem H]]; [now left|].
    right. exists n, phone. repeat split; assumption.
  - left. apply (preserves_input_error (has_keys (dict_keys book)));
      [apply change_func_has_keys | reflexivity].
  - left. apply (preserves_input_error (has_keys (dict_keys book)));
      [|reflexivity].
    apply (any_query_func _ cmd_phone today). tauto.
  - left. apply (preserves_input_error (has_keys (dict_keys book)));
      [|reflexivity].
    apply (any_query_func _ cmd_all today). tauto.
  - left. apply (preserves_input_error (has_keys (dict_keys book)));
      [apply add_birthday_func_has_keys | reflexivity].
  - left. apply (preserves_input_error (has_keys (dict_keys book)));
      [|reflexivity].
    apply (any_query_func _ cmd_show_birthday today). tauto.
  - left. apply (preserves_input_error (has_keys (dict_keys book)));
      [|reflexivity].
    apply (any_query_func _ cmd_birthdays today). tauto.
Qed.

(** X24: no handler removes, renames or reorders a contact: after any
    handler call the keys of the book are the keys it had, in their
    order, except that [add] with a name and a phone may have put that
    name, which was not in the book, at the end. *)
Theorem handlers_never_remove
    (c : command) (today : date) (args : list string) (book : AddressBook) :
  dict_keys (snd (handler c today args book)) = dict_keys book
  \/ (exists n phone,
        c = cmd_add /\ args = [n; phone] /\ dict_mem n book = false
        /\ dict_keys (snd (handler c today args book))
           = (dict_keys book ++ [n])%list).
Proof. apply handler_keys. Qed.

Lemma Record_add_phone_outcome phone record :
  not_KeyError (fst (Record_add_phone phone record)).
Proof.
  unfold Record_add_phone, bind, lift, get, put.
  destruct (re_match_phone phone) eqn:Hp.
  - now rewrite (Phone_init_accepted _ Hp).
  - now rewrite (Phone_init_rejected _ Hp).
Qed.

Lemma Record_edit_phone_outcome old_phone new_phone record :
  not_KeyError (fst (Record_edit_phone old_phone new_phone record)).
Proof.
  unfold Record_edit_phone, bind, get, ret.
  destruct (first_phone old_phone (phones record)) as [p|] eqn:Hp; [|exact I].
  unfold Record_remove_phone, bind, get, put. rewrite Hp.
  pose proof (Record_add_phone_outcome new_phone
                (mkRecord (name record)
                   (remove_first old_phone (phones record)) (birthday record)))
    as H.
  destruct (Record_add_phone new_phone _) as [[e|[]] r]; exact H.
Qed.

Lemma upcoming_loop_outcome today records :
  forall acc, not_KeyError (upcoming_loop today records acc).
Proof.
  induction records as [|record records IH]; intros acc; simpl; [exact I|].
  destruct (upcoming_step today record acc) as [e|acc'] eqn:Hstep;
    [|apply IH].
  now destruct (upcoming_step_error _ _ _ _ Hstep) as [msg ->].
Qed.

(** X25: no function of a handler raises a [KeyError]: each lookup
    [book.data[name]] is made only for a name that is in the book, so
    the errors the handlers turn into text are [ValueError]s and
    [IndexError]s only. *)
Theorem handlers_raise_no_KeyError
    (c : command) (today : date) (args : list string) (book : AddressBook) :
  not_KeyError (fst (func_of c today args book)).
Proof.
  destruct c; simpl.
  - unfold add_func.
    destruct args as [|n [|phone [|extra args]]]; try exact I.
    unfold unpack2, bind, ret, get, lift. cbn [List.length Nat.ltb Nat.leb].
    unfold dict_mem. destruct (dict_get n book) as [record|] eqn:Hget.
    + rewrite (on_record_present _ _ _ _ Hget).
      pose proof (Record_add_phone_outcome phone record) as H.
      destruct (Record_add_phone phone record) as [[e|[]] r]; exact H.
    + unfold Record_init, Name_init. destruct (String.eqb n ""); [exact I|].
      pose proof (Record_add_phone_outcome phone
                    (mkRecord (mkName n) [] None)) as H.
      destruct (Record_add_phone phone _) as [[e|[]] r]; exact H.
  - unfold change_func.
    destruct args as [|n [|old_phone [|new_phone [|extra args]]]];
      try exact I.
    unfold unpack3, AddressBook_find, bind, ret, get.
    cbn [List.length Nat.ltb Nat.leb].
    destruct (dict_get n book) as [record|] eqn:Hget; [|exact I].
    rewrite (on_record_present _ _ _ _ Hget).
    pose proof (Record_edit_phone_outcome old_phone new_phone record) as H.
    destruct (Record_edit_phone old_phone new_phone record) as [[e|[]] r];
      exact H.
  - unfold phone_func, index0, AddressBook_find, bind, ret, get, raise.
    destruct args as [|n args]; [exact I|].
    now destruct (dict_get n book).
  - unfold all_contacts_func, bind, ret, get. now destruct book.
  - unfold add_birthday_func.
    destruct args as [|n [|date_str [|extra args]]]; try exact I.
    unfold unpack2, except_ValueError, bind, ret, get, lift.
    unfold dict_mem. destruct (dict_get n book) as [record|] eqn:Hget;
      [|exact I].
    cbv beta iota delta [negb].
    destruct (Birthday_init date_str) as [e|b] eqn:Hb.
    + assert (He : e = ValueError "Invalid date format. Use DD.MM.YYYY").
      { assert (Hbad : forall b, Birthday_init date_str <> inr b)
          by (intros b; rewrite Hb; discriminate).
        apply Birthday_init_error in Hbad. congruence. }
      now rewrite He.
    + now rewrite (on_record_present _ _ _ _ Hget).
  - unfold show_birthday_func, index0, bind, ret, get, raise.
    destruct args as [|n args]; [exact I|].
    destruct (dict_get n book) as [record|]; [|exact I].
    now destruct (birthday record).
  - unfold birthdays_func, AddressBook_get_upcoming_birthdays, bind, get,
      lift, ret.
    pose proof (upcoming_loop_outcome today (dict_values book) []) as H.
    destruct (upcoming_loop today (dict_values book) []) as [e|[|entry l]];
      exact H || exact I.
Qed.

(** ** [parse_input] *)

Lemma append_assoc (a b c : string) : (a ++ b) ++ c = a ++ b ++ c.
Proof. induction a as [|x a IH]; simpl; [reflexivity | now rewrite IH]. Qed.

Lemma no_space_append (a b : string) :
  no_space (a ++ b) = no_space a && no_space b.
Proof.
  induction a as [|x a IH]; simpl; [reflexivity|].
  now rewrite IH, andb_assoc.
Qed.

Lemma append_not_empty (a : string) (c : ascii) :
  String.eqb (a ++ String c "") "" = false.
Proof. now destruct a. Qed.

Lemma split_from_words (s : string) :
  forall word,
    no_space word = true ->
    forallb is_word (split_from word s) = true.
Proof.
  induction s as [|c s IH]; simpl; intros word Hword.
  - destruct word as [|x word]; [reflexivity|].
    simpl. unfold is_word. simpl in *. now rewrite Hword.
  - destruct (is_space c) eqn:Hc.
    + destruct word as [|x word]; [now apply IH|].
      simpl. unfold is_word at 1. simpl in *. rewrite Hword. simpl.
      now apply IH.
    + apply IH. rewrite no_space_append, Hword. simpl. now rewrite Hc.
Qed.

Lemma split_from_nil (s : string) :
  forall word,
    split_from word s = [] <-> (word = "" /\ all_space s = true).
Proof.
  induction s as [|c s IH]; simpl; intros word.
  - destruct word; split; intros H; try tauto; try discriminate.
    destruct H as [H _]. discriminate H.
  - destruct (is_space c) eqn:Hc; simpl.
    + destruct word as [|x word].
      * rewrite IH. tauto.
      * split; intros H; [discriminate|]. destruct H as [H _]. discriminate H.
    + rewrite IH. split; intros [H1 H2]; [|discriminate].
      destruct word; discriminate.
Qed.

(** X26: [parse_input] raises an [IndexError] exactly on the inputs that
    consist of whitespace only, the empty input among them; on every
    other input it returns a command and arguments that are all words:
    none is empty and none contains whitespace. *)
Theorem parse_input_words (user_input : string) :
  (all_space user_input = true ->
   parse_input user_input = inl (IndexError "list index out of range"))
  /\ (all_space user_input = false ->
      exists command args,
        parse_input user_input = inr (command, args)
        /\ is_word command = true
        /\ forallb is_word args = true).
Proof.
  unfold parse_input, split. split; intros H.
  - replace (split_from "" user_input) with (@nil string); [reflexivity|].
    symmetry. apply split_from_nil. tauto.
  - pose proof (split_from_words user_input "" eq_refl) as Hwords.
    destruct (split_from "" user_input) as [|command args] eqn:Hsplit.
    + apply split_from_nil in Hsplit as [_ Hsplit]. congruence.
    + simpl in Hwords. apply andb_true_iff in Hwords as [? ?]. eauto.
Qed.

Lemma parse_input_words_witness :
  parse_input "   " = inl (IndexError "list index out of range")
  /\ exists command args,
       parse_input "  add  John   1234567890 " = inr (command, args)
       /\ is_word command = true /\ forallb is_word args = true.
Proof.
  split.
  - exact (proj1 (parse_input_words "   ") eq_refl).
  - exact (proj2 (parse_input_words "  add  John   1234567890 ") eq_refl).
Defined.

Lemma split_from_word (w : string) :
  no_space w = true ->
  forall word rest,
    split_from word (w ++ rest) = split_from (word ++ w) rest.
Proof.
  induction w as [|c w IH]; simpl; intros Hw word rest.
  - now rewrite append_empty_r.
  - apply andb_true_iff in Hw as [Hc Hw]. apply negb_true_iff in Hc.
    rewrite Hc, IH by assumption. now rewrite append_assoc.
Qed.

Lemma split_from_blank (word rest : string) :
  String.eqb word "" = false ->
  split_from word (String " "%char rest) = word :: split_from "" rest.
Proof. intros H. destruct word; [discriminate|reflexivity]. Qed.

Lemma join_cons (sep x y : string) (l : list string) :
  join sep (x :: y :: l) = x ++ sep ++ join sep (y :: l).
Proof. reflexivity. Qed.

Lemma split_join_words (words : list string) :
  forallb is_word words = true -> split (join " " words) = words.
Proof.
  unfold split. induction words as [|w words IH]; intros H; [reflexivity|].
  cbn [forallb] in H. apply andb_true_iff in H as [Hw Hwords].
  unfold is_word in Hw.
  apply andb_true_iff in Hw as [Hne Hw]. apply negb_true_iff in Hne.
  destruct words as [|w' words].
  - cbn [join]. rewrite <- (append_empty_r w) at 1.
    rewrite split_from_word by assumption. simpl.
    destruct w; [discriminate|reflexivity].
  - rewrite join_cons, split_from_word by assumption.
    cbn [append]. rewrite split_from_blank by assumption.
    now rewrite IH.
Qed.

(** X27: a command and arguments that are words, written with one blank
    between them, are what [parse_input] returns for that line. *)
Theorem parse_input_join (command : string) (args : list string) :
  is_word command = true -> forallb is_word args = true ->
  parse_input (join " " (command :: args)) = inr (command, args).
Proof.
  intros Hc Hargs. unfold parse_input.
  rewrite split_join_words; [reflexivity|]. simpl. now rewrite Hc.
Qed.

Lemma parse_input_join_witness :
  parse_input "add John 1234567890" = inr ("add", ["John"; "1234567890"]).
Proof.
  exact (parse_input_join "add" ["John"; "1234567890"] eq_refl eq_refl).
Defined.

(** ** More on the [add] handler *)

(** X28: [add] with the empty name, when the book has no Record under
    it, answers "Name cannot be empty" and leaves the book as it was,
    whatever the phone is: the name is validated before the phone. *)
Theorem add_empty_name (book : AddressBook) (phone : string) :
  dict_mem "" book = false ->
  add [""; phone] book = ("Name cannot be empty", book).
Proof.
  intros H. unfold add, input_error, add_func, unpack2, bind, ret, get, lift.
  cbn [List.length Nat.ltb Nat.leb]. now rewrite H.
Qed.

Lemma add_empty_name_witness :
  add [""; "1234567890"] book_bob = ("Name cannot be empty", book_bob).
Proof. exact (add_empty_name book_bob "1234567890" eq_refl). Defined.

(** X29: after [add] with a name that is not empty (or is in the book)
    and a phone that passes the validation, [phone] with that name
    answers with the phones the Record had before, in their order,
    followed by the new one, separated by a comma and a blank. *)
Theorem add_then_phone (book : AddressBook) (n p : string) :
  n <> "" \/ dict_mem n book = true -> re_match_phone p = true ->
  phone [n] (snd (add [n; p] book))
  = ("Phones for " ++ n ++ ": "
     ++ join ", " (phone_values (record_or_new n book) ++ [p]),
     snd (add [n; p] book)).
Proof.
  intros Hn Hp. rewrite (add_valid book n p Hn Hp).
  unfold phone, input_error, phone_func, index0, AddressBook_find, bind, ret,
    get.
  rewrite dict_get_set_same. unfold with_phone, phone_values. simpl.
  now rewrite map_app.
Qed.

Lemma add_then_phone_witness :
  phone ["Bob"] (snd (add ["Bob"; "1234567890"] book_bob))
  = ("Phones for Bob: 5555555555, 1234567890",
     snd (add ["Bob"; "1234567890"] book_bob)).
Proof.
  apply (add_then_phone book_bob "Bob" "1234567890").
  - left. discriminate.
  - reflexivity.
Defined.

(** ** The keys of the book stay pairwise different *)

Lemma existsb_keys_get {V} (k : string) (d : dict V) :
  dict_get k d = None -> existsb (String.eqb k) (dict_keys d) = false.
Proof.
  induction d as [|[k' v] d IH]; simpl; [reflexivity|].
  rewrite (String.eqb_sym k k'). destruct (String.eqb k' k); [discriminate|].
  exact IH.
Qed.

Lemma unique_app_absent (ks : list string) (k : string) :
  unique ks = true -> existsb (String.eqb k) ks = false ->
  unique (ks ++ [k]) = true.
Proof.
  induction ks as [|x ks IH]; simpl; intros Hu Hk; [reflexivity|].
  apply andb_true_iff in Hu as [Hx Hu]. apply orb_false_iff in Hk as [Hkx Hk].
  rewrite existsb_app. simpl. rewrite (String.eqb_sym x k), Hkx, orb_false_r.
  rewrite Hx. now apply IH.
Qed.

Lemma unique_keys_set (book : AddressBook) (k : string) record :
  unique_keys book = true -> unique_keys (dict_set k record book) = true.
Proof.
  unfold unique_keys. intros H. rewrite dict_keys_set.
  destruct (dict_mem k book) eqn:Hmem; [exact H|].
  apply unique_app_absent; [exact H|].
  now apply existsb_keys_get, dict_mem_false.
Qed.

Lemma existsb_keys_del {V} (x k : string) (d : dict V) :
  existsb (String.eqb x) (dict_keys d) = false ->
  existsb (String.eqb x) (dict_keys (dict_del k d)) = false.
Proof.
  induction d as [|[k' v] d IH]; simpl; intros H; [reflexivity|].
  apply orb_false_iff in H as [H1 H2].
  destruct (String.eqb k' k); [exact H2|]. simpl. rewrite H1. now apply IH.
Qed.

Lemma unique_keys_del (book : AddressBook) (k : string) :
  unique_keys book = true -> unique_keys (dict_del k book) = true.
Proof.
  unfold unique_keys.
  induction book as [|[k' v] book IH]; simpl; intros H; [reflexivity|].
  apply andb_true_iff in H as [H1 H2].
  destruct (String.eqb k' k); [exact H2|]. simpl.
  apply negb_true_iff in H1. rewrite (existsb_keys_del _ _ _ H1). simpl.
  now apply IH.
Qed.

(** Every operation on the book keeps its keys pairwise different, as
    the keys of a dict are. *)
Lemma unique_keys_reachable (ops : list operation) (book : AddressBook) :
  unique_keys book = true -> unique_keys (run_operations ops book) = true.
Proof.
  unfold run_operations. revert book.
  induction ops as [|op ops IH]; intros book H; simpl; [exact H|].
  apply IH. destruct op; simpl.
  - now apply unique_keys_set.
  - exact H.
  - unfold AddressBook_delete, bind, get, put, ret.
    destruct (dict_mem n book); [now apply unique_keys_del | exact H].
  - unfold unique_keys.
    now rewrite (on_record_has_keys (dict_keys book) n (run_method m) book
                   eq_refl).
  - unfold unique_keys.
    destruct (handler_keys c today args book)
      as [-> | (n & phone & _ & _ & Hmem & ->)]; [exact H|].
    apply unique_app_absent; [exact H|].
    now apply existsb_keys_get, dict_mem_false.
Qed.

(** ** The errors of the handlers *)

Lemma date_new_raises (y m d : Z) (e : exn) :
  date_new y m d = inl e -> date_error e.
Proof.
  unfold date_new, date_error.
  destruct (negb ((MINYEAR <=? y) && (y <=? MAXYEAR)));
    [intros [= <-]; right; right; exists y; reflexivity|].
  destruct (negb ((1 <=? m) && (m <=? 12)));
    [intros [= <-]; right; left; reflexivity|].
  destruct (negb ((1 <=? d) && (d <=? days_in_month y m)));
    [intros [= <-]; left; reflexivity|].
  discriminate.
Qed.

Lemma upcoming_step_raises today record acc (e : exn) :
  upcoming_step today record acc = inl e -> date_error e.
Proof.
  unfold upcoming_step, replace_year.
  destruct (birthday record) as [b|]; [|discriminate].
  destruct (date_new (year today) _ _) as [e1|this_year] eqn:H1.
  - intros [= ->]. eapply date_new_raises, H1.
  - destruct (date_lt this_year today).
    + destruct (date_new (year today + 1) _ _) as [e2|next] eqn:H2.
      * intros [= ->]. eapply date_new_raises, H2.
      * destruct (_ && _); discriminate.
    + destruct (_ && _); discriminate.
Qed.

Lemma upcoming_loop_error today records (e : exn) :
  forall acc, upcoming_loop today records acc = inl e -> date_error e.
Proof.
  induction records as [|record records IH]; intros acc; simpl;
    [discriminate|].
  destruct (upcoming_step today record acc) as [e1|acc'] eqn:Hstep.
  - intros [= ->]. eapply upcoming_step_raises, Hstep.
  - apply IH.
Qed.

Lemma Record_add_phone_raises phone record (e : exn) record' :
  Record_add_phone phone record = (inl e, record') ->
  e = ValueError "Phone number must be 10 digits long".
Proof.
  destruct (re_match_phone phone) eqn:Hp.
  - rewrite Record_add_phone_accepted by assumption. discriminate.
  - rewrite Record_add_phone_rejected by assumption. now intros [= <- _].
Qed.

Lemma Record_edit_phone_raises old_phone new_phone record (e : exn) record' :
  Record_edit_phone old_phone new_phone record = (inl e, record') ->
  e = ValueError "Phone number must be 10 digits long".
Proof.
  unfold Record_edit_phone, bind, get, ret.
  destruct (first_phone old_phone (phones record)) as [p|] eqn:Hp;
    [|discriminate].
  unfold Record_remove_phone, bind, get, put. rewrite Hp.
  destruct (Record_add_phone new_phone _) as [[e1|[]] r] eqn:Hadd;
    [|discriminate].
  intros [= <- _]. eapply Record_add_phone_raises, Hadd.
Qed.

(** The errors that leave the function of a command are those listed for
    it. *)
Lemma func_raises (c : command) (today : date) (args : list string)
    (book after : AddressBook) (e : exn) :
  func_of c today args book = (inl e, after) -> raises_in c e.
Proof.
  destruct c; simpl.
  - unfold add_func.
    destruct args as [|n [|phone [|extra args]]]; try discriminate.
    + unfold unpack2, bind, ret, get, lift.
      cbn [List.length Nat.ltb Nat.leb].
      unfold dict_mem. destruct (dict_get n book) as [record|] eqn:Hget.
      * rewrite (on_record_present _ _ _ _ Hget).
        destruct (Record_add_phone phone record) as [[e1|[]] r] eqn:Hadd;
          [|discriminate].
        intros [= <- _]. right. right. eapply Record_add_phone_raises, Hadd.
      * unfold Record_init, Name_init.
        destruct (String.eqb n ""); [intros [= <- _]; right; now left|].
        destruct (Record_add_phone phone _) as [[e1|[]] r] eqn:Hadd;
          [|discriminate].
        intros [= <- _]. right. right. eapply Record_add_phone_raises, Hadd.
    + intros [= <- _]. now left.
  - unfold change_func.
    destruct args as [|n [|old_phone [|new_phone [|extra args]]]];
      try discriminate.
    + unfold unpack3, AddressBook_find, bind, ret, get.
      cbn [List.length Nat.ltb Nat.leb].
      destruct (dict_get n book) as [record|] eqn:Hget; [|discriminate].
      rewrite (on_record_present _ _ _ _ Hget).
      destruct (Record_edit_phone old_phone new_phone record)
        as [[e1|[]] r] eqn:Hedit; [|discriminate].
      intros [= <- _]. right. eapply Record_edit_phone_raises, Hedit.
    + intros [= <- _]. now left.
  - unfold phone_func, index0, AddressBook_find, bind, ret, get, raise.
    destruct args as [|n args]; [now intros [= <- _]|].
    destruct (dict_get n book); discriminate.
  - unfold all_contacts_func, bind, ret, get. destruct book; discriminate.
  - unfold add_birthday_func.
    destruct args as [|n [|date_str [|extra args]]].
    + intros [= <- _]. right. exists 0. reflexivity.
    + intros [= <- _]. right. exists 1. reflexivity.
    + unfold unpack2, except_ValueError, bind, ret, get, lift.
      unfold dict_mem. destruct (dict_get n book) as [record|] eqn:Hget;
        [|discriminate].
      cbv beta iota delta [negb].
      destruct (Birthday_init date_str) as [e1|b] eqn:Hb.
      * assert (He : e1 = ValueError "Invalid date format. Use DD.MM.YYYY").
        { assert (Hbad : forall b, Birthday_init date_str <> inr b)
            by (intros b; rewrite Hb; discriminate).
          apply Birthday_init_error in Hbad. congruence. }
        rewrite He. discriminate.
      * rewrite (on_record_present _ _ _ _ Hget). discriminate.
    + intros [= <- _]. now left.
  - unfold show_birthday_func, index0, bind, ret, get, raise.
    destruct args as [|n args]; [now intros [= <- _]|].
    destruct (dict_get n book) as [record|]; [|discriminate].
    destruct (birthday record); discriminate.
  - unfold birthdays_func, AddressBook_get_upcoming_birthdays, bind, get,
      lift, ret.
    destruct (upcoming_loop today (dict_values book) []) as [e1|[|entry l]]
      eqn:Hloop; try discriminate.
    intros [= <- _]. eapply upcoming_loop_error, Hloop.
Qed.

Lemma raises_in_text (c : command) (e : exn) :
  raises_in c e -> e = ValueError (str_exn e) \/ e = IndexError (str_exn e).
Proof.
  destruct c; simpl; unfold date_error; intros H;
    repeat match goal with
           | H : _ \/ _ |- _ => destruct H as [H|H]
           | H : exists _, _ |- _ => destruct H as [? H]
           | H : False |- _ => destruct H
           end; subst e; simpl; auto.
Qed.

(** C6: for every command, argument list and book (and day on which it
    runs), the handler returns a text together with the book it leaves.
    When its function returned, the text is what the function returned.
    When its function raised, the error is one of those the code of that
    command raises (of the unpacking of the arguments, of the name or the
    phone, of the index into the arguments, of the replacement of the
    year), a [ValueError] or an [IndexError], and the text the handler
    returns is the message of that error; the book is as the function
    left it.  No error leaves a handler. *)
Theorem handlers_return_text
    (c : command) (today : date) (args : list string) (book : AddressBook) :
  exists text book',
    handler c today args book = (text, book')
    /\ match func_of c today args book with
       | (inr result, after) => text = result /\ book' = after
       | (inl e, after) =>
           raises_in c e
           /\ (e = ValueError text \/ e = IndexError text)
           /\ book' = after
       end.
Proof.
  replace (handler c today args) with (input_error (func_of c today args))
    by (destruct c; reflexivity).
  unfold input_error.
  destruct (func_of c today args book) as [[e|result] after] eqn:Hfunc.
  - exists (str_exn e), after. split; [reflexivity|].
    pose proof (func_raises _ _ _ _ _ _ Hfunc) as Hraises.
    split; [exact Hraises|]. split; [|reflexivity].
    eapply raises_in_text, Hraises.
  - exists result, after. repeat split.
Qed.

(** Each of these errors does arise, and the handler answers with its
    message. *)
Example handlers_error_texts :
  add ["John"; "1234567890"; "x"] [] = ("too many values to unpack (expected 2)", [])
  /\ add [""; "1234567890"] [] = ("Name cannot be empty", [])
  /\ add ["John"; "12345"] [] = ("Phone number must be 10 digits long", [])
  /\ change ["Bob"; "5555555555"; "1112223333"; "x"] book_bob
     = ("too many values to unpack (expected 3)", book_bob)
  /\ fst (change ["Bob"; "5555555555"; "555"] book_bob)
     = "Phone number must be 10 digits long"
  /\ phone [] book_bob = ("list index out of range", book_bob)
  /\ show_birthday [] book_bob = ("list index out of range", book_bob)
  /\ add_birthday ["Bob"] book_bob
     = ("not enough values to unpack (expected 2, got 1)", book_bob)
  /\ birthdays (mkdate 2023 3 10) [] book_ann_bob
     = ("day is out of range for month", book_ann_bob).
Proof. repeat split. Qed.
